(** * Steering server [ai_server.py]: a shallow embedding and its properties

    The server keeps two process-wide dictionaries, [search_state] (the
    search-pattern state machine) and [control_state] (the output filter),
    and one request handler, [get_controls], that reads a JSON body and
    mutates both.

    Python floats are modelled as real numbers ([R]): rounding, overflow,
    infinities, NaN and the sign of zero are left out. [math.sin],
    [math.cos], [math.exp] and [math.sqrt] are the functions of the same
    name of the standard library of reals, and [math.atan2] is defined below
    from [atan]. The dictionaries of shape [{'x': .., 'z': ..}] that the
    handler creates, copies and mutates in place live in an explicit heap,
    so that two names bound to the same dictionary see each other's writes.
    Line numbers refer to [ai_server.py]. *)

From Stdlib Require Import Reals Lra Lia ZArith Bool String List Permutation.
Import ListNotations.
Open Scope string_scope.
Open Scope list_scope.
Open Scope R_scope.

(** ** Scalar helpers *)

(** [clamp(value, min_val, max_val)], lines 32-33. *)
Definition clamp (value min_val max_val : R) : R :=
  Rmax min_val (Rmin value max_val).

(** [math.atan2(y, x)] on the reals: the angle in (-PI, PI] of the point
    [(x, y)], and [0] at the origin. *)
Definition atan2 (y x : R) : R :=
  if Rlt_dec 0 x then atan (y / x)
  else if Rlt_dec x 0 then
    if Rle_dec 0 y then atan (y / x) + PI else atan (y / x) - PI
  else if Rlt_dec 0 y then PI / 2
  else if Rlt_dec y 0 then - (PI / 2)
  else 0.

(** [wrap_angle(a)], lines 35-36. *)
Definition wrap_angle (a : R) : R := atan2 (sin a) (cos a).

(** [lerp_angle(a, b, t)], lines 38-40. *)
Definition lerp_angle (a b t : R) : R :=
  let d := wrap_angle (b - a) in
  a + d * clamp t 0 1.

(** [math.radians(deg)]. *)
Definition radians (deg : R) : R := deg * PI / 180.

(** [math.copysign(1, v)] on the reals (no negative zero). *)
Definition copysign1 (v : R) : R := if Rle_dec 0 v then 1 else -1.

(** Case analysis on the comparisons of reals a goal branches on; branches
    whose guard contradicts the context are closed by [lra]. *)
Ltac rdec :=
  repeat match goal with
  | |- context [Rlt_dec ?a ?b] => destruct (Rlt_dec a b); try lra
  | |- context [Rgt_dec ?a ?b] => destruct (Rgt_dec a b); try lra
  | |- context [Rle_dec ?a ?b] => destruct (Rle_dec a b); try lra
  end.

(** ** Data model *)

(** Dictionaries with keys ['x'] and ['z']: directions in the horizontal
    plane and obstacle centres. *)
Module V2.
Record t : Type := mk { x : R; z : R }.
End V2.

(** Dictionaries with keys ['x'], ['y'] and ['z']. *)
Module V3.
Record t : Type := mk { x : R; y : R; z : R }.
End V3.

(** The [drone] object of a request. *)
Module Drone.
Record t : Type := mk {
  position : V3.t;
  velocity : V3.t;
  yaw : R;
  maxTurn : R;
  targetAlt : R;
  speed : R
}.
End Drone.

(** The [lockedTarget] object; the handler reads only the ['x'] and ['z']
    keys of its position and velocity. *)
Module Target.
Record t : Type := mk { position : V2.t; velocity : V2.t }.
End Target.

Module Terrain.
Record t : Type := mk { height_at_drone : R; ahead_max_height : R }.
End Terrain.

Module Obstacle.
Record t : Type := mk { pos : V2.t; radius : R }.
End Obstacle.

(** The fields the handler extracts from the body, lines 86-90. *)
Record Request : Type := mkRequest {
  drone : Drone.t;
  lockedTarget : option Target.t;
  terrain : Terrain.t;
  obstacles : list Obstacle.t;
  dt : R
}.

(** Constants, lines 10-13. *)
Definition SWEEP_HOLD : R := 3.0.
Definition SWEEP_TRANSIT : R := 0.9.
Definition SWEEP_ANGLE_DEG : R := 40.
Definition HALF : R := 900 * 0.48.

(** The value of [search_state['phase']]: ['hold'] or ['transit']. *)
Inductive Phase : Type := hold | transit.

(** A reference to a dictionary of the heap. *)
Definition ref : Type := nat.

(** [search_state], lines 16-23. [seekDir] is [None] or a reference to a
    dictionary [{'x', 'z'}]. *)
Record SearchState : Type := mkSearch {
  inited : bool;
  centerYaw : R;
  side : Z;
  timer : R;
  phase : Phase;
  seekDir : option ref
}.

(** [control_state], lines 26-30. *)
Record ControlState : Type := mkControl {
  last_yaw : R;
  last_throttle : R;
  last_pitch : R
}.

(** The mutable state of the process: the heap of direction dictionaries and
    the two global dictionaries. *)
Record World : Type := mkWorld {
  heap : list V2.t;
  search_state : SearchState;
  control_state : ControlState
}.

Definition initial_search : SearchState :=
  mkSearch false 0 1%Z 0 hold None.

Definition initial_control : ControlState := mkControl 0 0 0.

Definition initial_world : World := mkWorld [] initial_search initial_control.

(** ** Heap *)

Definition heap_get (h : list V2.t) (r : ref) : V2.t :=
  nth r h (V2.mk 0 0).

Fixpoint heap_set (h : list V2.t) (r : ref) (v : V2.t) : list V2.t :=
  match h, r with
  | [], _ => []
  | _ :: h', O => v :: h'
  | u :: h', S r' => u :: heap_set h' r' v
  end.

(** The dictionary [search_state['seekDir']] refers to, if any. *)
Definition seekDir_value (w : World) : option V2.t :=
  match seekDir (search_state w) with
  | Some r => Some (heap_get (heap w) r)
  | None => None
  end.

(** ** Computations that mutate the world and may raise *)

Inductive outcome (A : Type) : Type :=
| Ok (a : A)
| Raised.
Arguments Ok {A} a.
Arguments Raised {A}.

Definition M (A : Type) : Type := World -> outcome A * World.

Definition ret {A : Type} (a : A) : M A := fun w => (Ok a, w).

Definition bind {A B : Type} (m : M A) (f : A -> M B) : M B :=
  fun w =>
    match m w with
    | (Ok a, w') => f a w'
    | (Raised, w') => (Raised, w')
    end.

Definition raise {A : Type} : M A := fun w => (Raised, w).

Declare Scope py_scope.
Delimit Scope py_scope with py.
Notation "v <- c1 ;; c2" := (bind c1 (fun v => c2))
  (at level 61, c1 at next level, right associativity) : py_scope.
Notation "c1 ;; c2" := (bind c1 (fun _ => c2))
  (at level 61, right associativity) : py_scope.
Open Scope py_scope.

Definition get_search : M SearchState := fun w => (Ok (search_state w), w).

Definition modify_search (f : SearchState -> SearchState) : M unit :=
  fun w => (Ok tt, mkWorld (heap w) (f (search_state w)) (control_state w)).

Definition get_control : M ControlState := fun w => (Ok (control_state w), w).

Definition put_control (c : ControlState) : M unit :=
  fun w => (Ok tt, mkWorld (heap w) (search_state w) c).

(** A dictionary literal [{'x': .., 'z': ..}] or [d.copy()]: a new object. *)
Definition new_dict (v : V2.t) : M ref :=
  fun w =>
    (Ok (length (heap w)),
     mkWorld (heap w ++ [v]) (search_state w) (control_state w)).

Definition load (r : ref) : M V2.t := fun w => (Ok (heap_get (heap w) r), w).

Definition store (r : ref) (v : V2.t) : M unit :=
  fun w =>
    (Ok tt, mkWorld (heap_set (heap w) r v) (search_state w) (control_state w)).

(** [d['x']] and [d['z']]. *)
Definition get_x (r : ref) : M R := v <- load r ;; ret (V2.x v).
Definition get_z (r : ref) : M R := v <- load r ;; ret (V2.z v).

(** [d['x'] = a] and [d['z'] = a]. *)
Definition set_x (r : ref) (a : R) : M unit :=
  v <- load r ;; store r (V2.mk a (V2.z v)).
Definition set_z (r : ref) (a : R) : M unit :=
  v <- load r ;; store r (V2.mk (V2.x v) a).

(** [a / b] with a divisor that may be zero: [ZeroDivisionError]. *)
Definition py_div (a b : R) : M R :=
  if Req_dec_T b 0 then raise else ret (a / b).

(** Assignments to the keys of [search_state]. *)
Definition set_inited (b : bool) : M unit :=
  modify_search (fun s =>
    mkSearch b (centerYaw s) (side s) (timer s) (phase s) (seekDir s)).
Definition set_centerYaw (a : R) : M unit :=
  modify_search (fun s =>
    mkSearch (inited s) a (side s) (timer s) (phase s) (seekDir s)).
Definition set_side (k : Z) : M unit :=
  modify_search (fun s =>
    mkSearch (inited s) (centerYaw s) k (timer s) (phase s) (seekDir s)).
Definition set_timer (a : R) : M unit :=
  modify_search (fun s =>
    mkSearch (inited s) (centerYaw s) (side s) a (phase s) (seekDir s)).
Definition set_phase (p : Phase) : M unit :=
  modify_search (fun s =>
    mkSearch (inited s) (centerYaw s) (side s) (timer s) p (seekDir s)).
Definition set_seekDir (r : ref) : M unit :=
  modify_search (fun s =>
    mkSearch (inited s) (centerYaw s) (side s) (timer s) (phase s) (Some r)).

(** ** [steer_avoid], lines 42-76 *)

(** One iteration of the loop over the obstacles, lines 52-61. *)
Definition obstacle_push (ahead_pos push : V3.t) (o : Obstacle.t) : V3.t :=
  let d2 := (V3.x ahead_pos - V2.x (Obstacle.pos o)) ^ 2
            + (V3.z ahead_pos - V2.z (Obstacle.pos o)) ^ 2 in
  let r := Obstacle.radius o + 1.8 in
  if Rlt_dec d2 (r * r) then
    let push_vec_x := V3.x ahead_pos - V2.x (Obstacle.pos o) in
    let push_vec_z := V3.z ahead_pos - V2.z (Obstacle.pos o) in
    let dist := sqrt d2 in
    if Rgt_dec dist 1e-6 then
      V3.mk (V3.x push + (push_vec_x / dist) * (1 - dist / r))
            (V3.y push)
            (V3.z push + (push_vec_z / dist) * (1 - dist / r))
    else push
  else push.

(** [vel] is only read, so the dictionary is passed by value. *)
Definition steer_avoid (pos : V3.t) (vel : V2.t) (obstacles : list Obstacle.t)
  : V3.t :=
  let ahead_pos := V3.mk (V3.x pos + V2.x vel * 0.1)
                         (V3.y pos)
                         (V3.z pos + V2.z vel * 0.1) in
  let push := fold_left (obstacle_push ahead_pos) obstacles (V3.mk 0 0 0) in
  let margin := 28 in
  let dx := HALF - Rabs (V3.x pos) in
  let dz := HALF - Rabs (V3.z pos) in
  let fx := if Rlt_dec dx margin
            then copysign1 (V3.x pos) * (1 - dx / margin) else 0 in
  let fz := if Rlt_dec dz margin
            then copysign1 (V3.z pos) * (1 - dz / margin) else 0 in
  V3.mk (V3.x push - fx * 2.0) (V3.y push) (V3.z push - fz * 2.0).

(** ** [get_controls], lines 79-227 *)

Module Controls.
Record t : Type := mk { yaw : R; throttle : R; pitch : R }.
End Controls.

Inductive DroneStatus : Type := HUNTING | SEARCHING.

(** What the handler returns: the JSON object of a success, with
    [search_state] serialized as it is at that moment, or a status code with
    an error message. *)
Inductive Response : Type :=
| Success (controls : Controls.t) (searchState : SearchState)
          (searchState_seekDir : option V2.t) (droneStatus : DroneStatus)
| Failure (status : nat) (error : string).

(** "Direction Finding", lines 97-146: returns the dictionary [raw_dir]. *)
Definition direction_finding (drone : Drone.t)
  (locked_target : option Target.t) (dt : R) : M ref :=
  match locked_target with
  | Some target =>
      set_inited false ;;
      let to_t_x := V2.x (Target.position target)
                    - V3.x (Drone.position drone) in
      let to_t_z := V2.z (Target.position target)
                    - V3.z (Drone.position drone) in
      let lead_x := V2.x (Target.velocity target) * 0.6 in
      let lead_z := V2.z (Target.velocity target) * 0.6 in
      let final_dir_x := to_t_x + lead_x in
      let final_dir_z := to_t_z + lead_z in
      let len_sq := final_dir_x ^ 2 + final_dir_z ^ 2 in
      if Rgt_dec len_sq 1e-6 then
        let inv_len := 1 / sqrt len_sq in
        new_dict (V2.mk (final_dir_x * inv_len) (final_dir_z * inv_len))
      else
        new_dict (V2.mk (cos (Drone.yaw drone)) (sin (Drone.yaw drone)))
  | None =>
      s <- get_search ;;
      (if negb (inited s) then
         set_inited true ;;
         set_centerYaw (Drone.yaw drone) ;;
         set_side 1 ;;
         set_timer SWEEP_HOLD ;;
         set_phase hold
       else ret tt) ;;
      s <- get_search ;;
      match phase s with
      | transit =>
          let cyaw := atan2 (- V3.z (Drone.position drone))
                            (- V3.x (Drone.position drone)) in
          set_centerYaw (lerp_angle (centerYaw s) cyaw (1 - exp (- dt * 0.25)))
      | hold => ret tt
      end ;;
      s <- get_search ;;
      set_timer (timer s - dt) ;;
      s <- get_search ;;
      (if Rle_dec (timer s) 0 then
         match phase s with
         | hold =>
             set_side (side s * -1) ;;
             set_phase transit ;;
             set_timer SWEEP_TRANSIT
         | transit =>
             set_phase hold ;;
             set_timer SWEEP_HOLD
         end
       else ret tt) ;;
      s <- get_search ;;
      let amp := radians SWEEP_ANGLE_DEG in
      let yaw_t := wrap_angle (centerYaw s + IZR (side s) * amp) in
      new_dict (V2.mk (cos yaw_t) (sin yaw_t))
  end.

(** Lines 166-169 and 179-182: divide a direction by its length, in place,
    unless the length is at most 1e-6. *)
Definition normalize_in_place (d : ref) : M unit :=
  dx <- get_x d ;;
  dz <- get_z d ;;
  let len := sqrt (dx ^ 2 + dz ^ 2) in
  if Rgt_dec len 1e-6 then
    dx <- get_x d ;; set_x d (dx / len) ;;
    dz <- get_z d ;; set_z d (dz / len)
  else ret tt.

(** "Unified Steering & Smoothing", lines 151-172: returns the dictionary
    bound to [seek_dir], which is also stored in [search_state['seekDir']]
    and bound to [desired_dir]. *)
Definition steering_smoothing (drone : Drone.t) (raw_dir : ref)
  (is_hunting is_newly_hunting : bool) (dt : R) : M ref :=
  s <- get_search ;;
  match seekDir s with
  | None =>
      d <- new_dict (V2.mk (cos (Drone.yaw drone)) (sin (Drone.yaw drone))) ;;
      set_seekDir d
  | Some _ => ret tt
  end ;;
  s <- get_search ;;
  match seekDir s with
  | None => raise
  | Some current =>
      cur <- load current ;;
      copy <- new_dict cur ;;
      seek_dir <-
        (if is_newly_hunting then ret raw_dir
         else
           let smoothing_gain := if is_hunting then 8.0 else 2.2 in
           let a := 1 - exp (- dt * smoothing_gain) in
           rx <- get_x raw_dir ;; sx <- get_x copy ;;
           set_x copy (sx + (rx - sx) * a) ;;
           rz <- get_z raw_dir ;; sz <- get_z copy ;;
           set_z copy (sz + (rz - sz) * a) ;;
           ret copy) ;;
      normalize_in_place seek_dir ;;
      set_seekDir seek_dir ;;
      ret seek_dir
  end.

(** "Avoidance", lines 175-182, on the dictionary bound to [desired_dir]. *)
Definition avoidance (drone : Drone.t) (desired_dir : ref)
  (obstacles : list Obstacle.t) : M unit :=
  vel <- load desired_dir ;;
  let avoid_vec := steer_avoid (Drone.position drone) vel obstacles in
  dx <- get_x desired_dir ;; set_x desired_dir (dx + V3.x avoid_vec) ;;
  dz <- get_z desired_dir ;; set_z desired_dir (dz + V3.z avoid_vec) ;;
  normalize_in_place desired_dir.

(** "AI controls calculation", lines 185-204: the raw yaw, throttle and
    pitch commands. The division by [maxTurn] is the one division of the
    handler whose divisor can be zero. *)
Definition controls_calculation (drone : Drone.t) (terrain : Terrain.t)
  (desired_dir : ref) (dt : R) : M Controls.t :=
  ddx <- get_x desired_dir ;;
  ddz <- get_z desired_dir ;;
  let desired_yaw := atan2 ddz ddx in
  let yaw_error := wrap_angle (desired_yaw - Drone.yaw drone) in
  let commanded_yaw_rate :=
    clamp (yaw_error / Rmax dt 1e-5)
          (- Drone.maxTurn drone) (Drone.maxTurn drone) in
  hud_yaw_raw <- py_div commanded_yaw_rate (Drone.maxTurn drone) ;;
  let ground_ref := Rmax (Terrain.height_at_drone terrain)
                         (Terrain.ahead_max_height terrain) in
  let target_y := ground_ref + Drone.targetAlt drone in
  let climb_err := target_y - V3.y (Drone.position drone) in
  let vertical_vel := V3.y (Drone.velocity drone) in
  let damping := 0.9 * vertical_vel in
  let altitude_throttle := clamp ((climb_err - damping) * 0.2) (-1) 1 in
  let fwd_x := cos (Drone.yaw drone) in
  let fwd_z := sin (Drone.yaw drone) in
  let forward_speed := V3.x (Drone.velocity drone) * fwd_x
                       + V3.z (Drone.velocity drone) * fwd_z in
  let accel_err := Drone.speed drone - forward_speed in
  let power_command := clamp (accel_err * 0.1) (-1) 1 in
  let hud_pitch_raw := power_command in
  let hud_throttle_raw :=
    clamp (altitude_throttle + power_command * 0.5) (-1) 1 in
  ret (Controls.mk hud_yaw_raw hud_throttle_raw hud_pitch_raw).

(** "Smoothing", lines 207-215: blend the raw commands into
    [control_state] and return the smoothed commands. *)
Definition output_smoothing (raw : Controls.t) (dt : R) : M Controls.t :=
  let smoothing_factor := 1.0 - exp (- dt * 10.0) in
  c <- get_control ;;
  let smoothed_yaw :=
    lerp_angle (last_yaw c) (Controls.yaw raw) smoothing_factor in
  let smoothed_throttle :=
    last_throttle c
    + (Controls.throttle raw - last_throttle c) * smoothing_factor in
  let smoothed_pitch :=
    last_pitch c + (Controls.pitch raw - last_pitch c) * smoothing_factor in
  put_control (mkControl smoothed_yaw smoothed_throttle smoothed_pitch) ;;
  ret (Controls.mk smoothed_yaw smoothed_throttle smoothed_pitch).

(** [is_hunting], line 98: [locked_target is not None]. *)
Definition is_hunting (req : Request) : bool :=
  match lockedTarget req with Some _ => true | None => false end.

(** Lines 97-172: mode selection, raw direction and its smoothing. Returns
    the dictionary bound to [desired_dir] at line 172. *)
Definition desired_direction (req : Request) : M ref :=
  s <- get_search ;;
  let is_newly_hunting := is_hunting req && inited s in
  raw_dir <- direction_finding (drone req) (lockedTarget req) (dt req) ;;
  steering_smoothing (drone req) raw_dir (is_hunting req) is_newly_hunting
                     (dt req).

(** Lines 96-221: the handler once the request fields are extracted and
    validated. *)
Definition get_controls_body (req : Request) : M Response :=
  let drone_status := if is_hunting req then HUNTING else SEARCHING in
  desired_dir <- desired_direction req ;;
  avoidance (drone req) desired_dir (obstacles req) ;;
  raw <- controls_calculation (drone req) (terrain req) desired_dir
                              (dt req) ;;
  smoothed <- output_smoothing raw (dt req) ;;
  fun w => (Ok (Success smoothed (search_state w) (seekDir_value w)
                        drone_status), w).

(** The [try]/[except] of lines 81 and 223-227 around the body: an
    exception becomes the 500 response and the mutations made before it
    stay. *)
Definition tick (req : Request) (w : World) : Response * World :=
  match get_controls_body req w with
  | (Ok resp, w') => (resp, w')
  | (Raised, w') => (Failure 500 "Internal Server Error", w')
  end.

(** ** The request body *)

(** The value of [request.json]: a parsed JSON document, or [PNone] when
    there is none. *)
#[local] Set Warnings "-register-all".
Inductive pyval : Type :=
| PNone
| PBool (b : bool)
| PNum (r : R)
| PStr (s : string)
| PList (l : list pyval)
| PDict (kv : list (string * pyval)).

(** Python's truth value of a JSON value: [None], [False], zero and the
    empty string, list and object are false. *)
Definition truthy (v : pyval) : bool :=
  match v with
  | PNone => false
  | PBool b => b
  | PNum r => if Req_dec_T r 0 then false else true
  | PStr s => match s with EmptyString => false | _ => true end
  | PList l => match l with [] => false | _ => true end
  | PDict kv => match kv with [] => false | _ => true end
  end.

Definition is_None (v : pyval) : bool :=
  match v with PNone => true | _ => false end.

Fixpoint assoc (k : string) (kv : list (string * pyval)) : option pyval :=
  match kv with
  | [] => None
  | (k', v) :: kv' => if String.eqb k k' then Some v else assoc k kv'
  end.

(** [d.get(k, default)]. *)
Definition dict_get (kv : list (string * pyval)) (k : string)
  (default : pyval) : pyval :=
  match assoc k kv with Some v => v | None => default end.

(** Python's [all]. *)
Definition all (l : list bool) : bool := forallb (fun b => b) l.

(** *** Reading the nested fields

    The body of the handler indexes the nested objects as it goes; here they
    are read into the records above before the body runs. A payload in which
    a key the handler indexes is missing, or holds something it cannot
    compute with, has no reading. *)

Definition opt_bind {A B : Type} (o : option A) (f : A -> option B)
  : option B :=
  match o with Some a => f a | None => None end.

(** A JSON number, or a boolean, which Python computes with as 0 or 1. *)
Definition as_num (v : pyval) : option R :=
  match v with
  | PNum r => Some r
  | PBool b => Some (if b then 1 else 0)
  | _ => None
  end.

(** [v[k]] for an object [v]. *)
Definition item (v : pyval) (k : string) : option pyval :=
  match v with PDict kv => assoc k kv | _ => None end.

Definition num_item (v : pyval) (k : string) : option R :=
  opt_bind (item v k) as_num.

Definition read_V2 (v : pyval) : option V2.t :=
  opt_bind (num_item v "x") (fun x =>
  opt_bind (num_item v "z") (fun z =>
  Some (V2.mk x z))).

Definition read_V3 (v : pyval) : option V3.t :=
  opt_bind (num_item v "x") (fun x =>
  opt_bind (num_item v "y") (fun y =>
  opt_bind (num_item v "z") (fun z =>
  Some (V3.mk x y z)))).

Definition read_drone (v : pyval) : option Drone.t :=
  opt_bind (opt_bind (item v "position") read_V3) (fun position =>
  opt_bind (opt_bind (item v "velocity") read_V3) (fun velocity =>
  opt_bind (num_item v "yaw") (fun yaw =>
  opt_bind (num_item v "maxTurn") (fun maxTurn =>
  opt_bind (num_item v "targetAlt") (fun targetAlt =>
  opt_bind (num_item v "speed") (fun speed =>
  Some (Drone.mk position velocity yaw maxTurn targetAlt speed))))))).

(** [locked_target is not None] decides the mode, line 98. *)
Definition read_target (v : pyval) : option (option Target.t) :=
  match v with
  | PNone => Some None
  | _ =>
      opt_bind (opt_bind (item v "position") read_V2) (fun position =>
      opt_bind (opt_bind (item v "velocity") read_V2) (fun velocity =>
      Some (Some (Target.mk position velocity))))
  end.

Definition read_terrain (v : pyval) : option Terrain.t :=
  opt_bind (num_item v "height_at_drone") (fun h =>
  opt_bind (num_item v "ahead_max_height") (fun a =>
  Some (Terrain.mk h a))).

Definition read_obstacle (v : pyval) : option Obstacle.t :=
  opt_bind (opt_bind (item v "pos") read_V2) (fun pos =>
  opt_bind (num_item v "radius") (fun radius =>
  Some (Obstacle.mk pos radius))).

Fixpoint read_all {A : Type} (f : pyval -> option A) (l : list pyval)
  : option (list A) :=
  match l with
  | [] => Some []
  | v :: l' =>
      opt_bind (f v) (fun a =>
      opt_bind (read_all f l') (fun l'' => Some (a :: l'')))
  end.

(** The loop of [steer_avoid] iterates over [obstacles]: a list of
    obstacles, or an empty string or object, over which it does nothing. *)
Definition read_obstacles (v : pyval) : option (list Obstacle.t) :=
  match v with
  | PList l => read_all read_obstacle l
  | PStr EmptyString => Some []
  | PDict [] => Some []
  | _ => None
  end.

Definition read_request (drone locked_target terrain obstacles dt : pyval)
  : option Request :=
  opt_bind (read_drone drone) (fun d =>
  opt_bind (read_target locked_target) (fun t =>
  opt_bind (read_terrain terrain) (fun te =>
  opt_bind (read_obstacles obstacles) (fun obs =>
  opt_bind (as_num dt) (fun dt' =>
  Some (mkRequest d t te obs dt')))))).

(** *** The handler, lines 79-227

    [data] is the value of [request.json], once line 82 has returned it.
    The result is [None] for a payload that passes the validation of lines
    83-94 and has no reading: the handler then raises somewhere in its
    body, possibly after writing to [search_state], and the model does not
    say where. *)
Definition get_controls (data : pyval) (w : World)
  : option (Response * World) :=
  if negb (truthy data) then
    Some (Failure 400 "No data received", w)
  else
    match data with
    | PDict kv =>
        let drone := dict_get kv "drone" PNone in
        let locked_target := dict_get kv "lockedTarget" PNone in
        let terrain := dict_get kv "terrain" PNone in
        let obstacles := dict_get kv "obstacles" (PList []) in
        let dt := dict_get kv "dt" PNone in
        if negb (all [truthy drone; truthy terrain; negb (is_None dt)]) then
          Some (Failure 400 "Incomplete data provided", w)
        else
          match read_request drone locked_target terrain obstacles dt with
          | Some req => Some (tick req w)
          | None => None
          end
    | _ =>
        (* [data.get] on a value that is not an object raises, and nothing
           has been written yet *)
        Some (Failure 500 "Internal Server Error", w)
    end.

(** The JSON object of a well-formed request. *)
Definition json_V2 (v : V2.t) : pyval :=
  PDict [("x", PNum (V2.x v)); ("z", PNum (V2.z v))].

Definition json_V3 (v : V3.t) : pyval :=
  PDict [("x", PNum (V3.x v)); ("y", PNum (V3.y v)); ("z", PNum (V3.z v))].

Definition json_drone (d : Drone.t) : pyval :=
  PDict [("position", json_V3 (Drone.position d));
         ("velocity", json_V3 (Drone.velocity d));
         ("yaw", PNum (Drone.yaw d));
         ("maxTurn", PNum (Drone.maxTurn d));
         ("targetAlt", PNum (Drone.targetAlt d));
         ("speed", PNum (Drone.speed d))].

Definition json_target (t : Target.t) : pyval :=
  PDict [("position", json_V2 (Target.position t));
         ("velocity", json_V2 (Target.velocity t))].

Definition json_terrain (t : Terrain.t) : pyval :=
  PDict [("height_at_drone", PNum (Terrain.height_at_drone t));
         ("ahead_max_height", PNum (Terrain.ahead_max_height t))].

Definition json_obstacle (o : Obstacle.t) : pyval :=
  PDict [("pos", json_V2 (Obstacle.pos o));
         ("radius", PNum (Obstacle.radius o))].

Definition json_request (req : Request) : pyval :=
  PDict [("drone", json_drone (drone req));
         ("lockedTarget",
          match lockedTarget req with
          | Some t => json_target t
          | None => PNone
          end);
         ("terrain", json_terrain (terrain req));
         ("obstacles", PList (map json_obstacle (obstacles req)));
         ("dt", PNum (dt req))].

(** ** Sequences of requests *)

(** The handler run on one request after the other: the responses, and the
    world after the last one. *)
Fixpoint run_ticks (reqs : list Request) (w : World)
  : list Response * World :=
  match reqs with
  | [] => ([], w)
  | req :: reqs' =>
      let (resp, w1) := tick req w in
      let (resps, w2) := run_ticks reqs' w1 in
      (resp :: resps, w2)
  end.

(** ** Observations of a tick *)

(** The dictionary [raw_dir] holds at line 146. *)
Definition raw_direction (req : Request) (w : World) : option V2.t :=
  match direction_finding (drone req) (lockedTarget req) (dt req) w with
  | (Ok r, w') => Some (heap_get (heap w') r)
  | (Raised, _) => None
  end.

(** The dictionary [seek_dir] holds at line 171, where it is stored in
    [search_state['seekDir']]: the result of the smoothing stage. *)
Definition smoothed_direction (req : Request) (w : World) : option V2.t :=
  match desired_direction req w with
  | (Ok r, w') => Some (heap_get (heap w') r)
  | (Raised, _) => None
  end.

(** The direction the avoidance stage, run by itself, leaves in a
    dictionary that holds [pre]. *)
Definition post_avoidance (d : Drone.t) (obs : list Obstacle.t) (pre : V2.t)
  : V2.t :=
  heap_get
    (heap (snd (avoidance d 0%nat obs
                  (mkWorld [pre] initial_search initial_control))))
    0%nat.

(** ** The stages as functions on values

    What each stage computes, without the heap; the lemmas below relate the
    stages to them. *)

Definition forward (d : Drone.t) : V2.t :=
  V2.mk (cos (Drone.yaw d)) (sin (Drone.yaw d)).

Definition hunt_raw (d : Drone.t) (t : Target.t) : V2.t :=
  let final_dir_x := V2.x (Target.position t) - V3.x (Drone.position d)
                     + V2.x (Target.velocity t) * 0.6 in
  let final_dir_z := V2.z (Target.position t) - V3.z (Drone.position d)
                     + V2.z (Target.velocity t) * 0.6 in
  let len_sq := final_dir_x ^ 2 + final_dir_z ^ 2 in
  if Rgt_dec len_sq 1e-6 then
    V2.mk (final_dir_x * (1 / sqrt len_sq)) (final_dir_z * (1 / sqrt len_sq))
  else forward d.

(** The state machine after lines 123-128: started afresh unless it is
    running. *)
Definition sweep_entry (d : Drone.t) (s : SearchState) : SearchState :=
  if inited s then s
  else mkSearch true (Drone.yaw d) 1 SWEEP_HOLD hold (seekDir s).

(** The state machine after lines 123-142. *)
Definition sweep_step (d : Drone.t) (dt : R) (s : SearchState)
  : SearchState :=
  let s1 := sweep_entry d s in
  let cy := match phase s1 with
            | transit =>
                lerp_angle (centerYaw s1)
                  (atan2 (- V3.z (Drone.position d))
                         (- V3.x (Drone.position d)))
                  (1 - exp (- dt * 0.25))
            | hold => centerYaw s1
            end in
  let tm := timer s1 - dt in
  if Rle_dec tm 0 then
    match phase s1 with
    | hold => mkSearch (inited s1) cy (side s1 * -1) SWEEP_TRANSIT transit
                       (seekDir s1)
    | transit => mkSearch (inited s1) cy (side s1) SWEEP_HOLD hold
                          (seekDir s1)
    end
  else mkSearch (inited s1) cy (side s1) tm (phase s1) (seekDir s1).

Definition search_raw (s : SearchState) : V2.t :=
  let yaw_t :=
    wrap_angle (centerYaw s + IZR (side s) * radians SWEEP_ANGLE_DEG) in
  V2.mk (cos yaw_t) (sin yaw_t).

Definition normalize_value (v : V2.t) : V2.t :=
  let len := sqrt (V2.x v ^ 2 + V2.z v ^ 2) in
  if Rgt_dec len 1e-6 then V2.mk (V2.x v / len) (V2.z v / len) else v.

Definition blend (cur raw : V2.t) (a : R) : V2.t :=
  V2.mk (V2.x cur + (V2.x raw - V2.x cur) * a)
        (V2.z cur + (V2.z raw - V2.z cur) * a).

Definition avoid_value (pos : V3.t) (obs : list Obstacle.t) (v : V2.t)
  : V2.t :=
  let push := steer_avoid pos v obs in
  normalize_value (V2.mk (V2.x v + V3.x push) (V2.z v + V3.z push)).

Definition raw_controls (d : Drone.t) (te : Terrain.t) (dir : V2.t) (dt : R)
  : Controls.t :=
  let yaw_error :=
    wrap_angle (atan2 (V2.z dir) (V2.x dir) - Drone.yaw d) in
  let altitude_throttle :=
    clamp ((Rmax (Terrain.height_at_drone te) (Terrain.ahead_max_height te)
            + Drone.targetAlt d - V3.y (Drone.position d)
            - 0.9 * V3.y (Drone.velocity d)) * 0.2) (-1) 1 in
  let power_command :=
    clamp ((Drone.speed d
            - (V3.x (Drone.velocity d) * cos (Drone.yaw d)
               + V3.z (Drone.velocity d) * sin (Drone.yaw d))) * 0.1)
          (-1) 1 in
  Controls.mk
    (clamp (yaw_error / Rmax dt 1e-5) (- Drone.maxTurn d) (Drone.maxTurn d)
     / Drone.maxTurn d)
    (clamp (altitude_throttle + power_command * 0.5) (-1) 1)
    power_command.

Definition smooth_controls (c : ControlState) (raw : Controls.t) (dt : R)
  : ControlState :=
  let f := 1.0 - exp (- dt * 10.0) in
  mkControl (lerp_angle (last_yaw c) (Controls.yaw raw) f)
            (last_throttle c + (Controls.throttle raw - last_throttle c) * f)
            (last_pitch c + (Controls.pitch raw - last_pitch c) * f).

Definition with_seekDir (s : SearchState) (r : ref) : SearchState :=
  mkSearch (inited s) (centerYaw s) (side s) (timer s) (phase s) (Some r).

Definition current_seekDir (d : Drone.t) (w : World) : V2.t :=
  match seekDir (search_state w) with
  | None => forward d
  | Some r => heap_get (heap w) r
  end.

Definition smoothing_factor (is_hunting : bool) (dt : R) : R :=
  1 - exp (- dt * (if is_hunting then 8.0 else 2.2)).

(** [search_state] after "Direction Finding", [seekDir] apart. *)
Definition mode_state (req : Request) (s : SearchState) : SearchState :=
  match lockedTarget req with
  | Some _ => mkSearch false (centerYaw s) (side s) (timer s) (phase s)
                       (seekDir s)
  | None => sweep_step (drone req) (dt req) s
  end.

Definition raw_value (req : Request) (s : SearchState) : V2.t :=
  match lockedTarget req with
  | Some t => hunt_raw (drone req) t
  | None => search_raw (sweep_step (drone req) (dt req) s)
  end.

Definition smoothed_value (req : Request) (w : World) : V2.t :=
  let raw := raw_value req (search_state w) in
  if is_hunting req && inited (search_state w) then normalize_value raw
  else
    let cur := match seekDir (search_state w) with
               | None => forward (drone req)
               | Some r => heap_get (heap w ++ [raw]) r
               end in
    normalize_value
      (blend cur raw (smoothing_factor (is_hunting req) (dt req))).

Definition final_direction (req : Request) (w : World) : V2.t :=
  avoid_value (Drone.position (drone req)) (obstacles req)
              (smoothed_value req w).

Definition controls_of (c : ControlState) : Controls.t :=
  Controls.mk (last_yaw c) (last_throttle c) (last_pitch c).

Definition status_of (req : Request) : DroneStatus :=
  if is_hunting req then HUNTING else SEARCHING.

(** ** Statements of the specification *)

(** The intercept vector of the specification: relative position plus
    target velocity times the lead time, in the horizontal plane. *)
Definition spec_intercept (d : Drone.t) (t : Target.t) : V2.t :=
  V2.mk ((V2.x (Target.position t) - V3.x (Drone.position d))
         + V2.x (Target.velocity t) * 0.6)
        ((V2.z (Target.position t) - V3.z (Drone.position d))
         + V2.z (Target.velocity t) * 0.6).

Definition norm_sq (v : V2.t) : R := V2.x v ^ 2 + V2.z v ^ 2.

(** The normalization of the specification: the vector divided by its
    length. *)
Definition spec_normalize (v : V2.t) : V2.t :=
  V2.mk (V2.x v / sqrt (norm_sq v)) (V2.z v / sqrt (norm_sq v)).

Definition in_unit_range (v : R) : Prop := -1 <= v <= 1.





(** A request without a locked target whose [dt] is [dt0]. *)
Definition searching_step (dt0 : R) (req : Request) : Prop :=
  lockedTarget req = None /\ dt req = dt0.

(** The state machine after a sequence of requests. *)
Definition sweep_after (reqs : list Request) (w : World) : SearchState :=
  search_state (snd (run_ticks reqs w)).

(** The look-ahead point of [steer_avoid], in the horizontal plane. *)
Definition look_ahead (pos : V3.t) (dir : V2.t) : V2.t :=
  V2.mk (V3.x pos + V2.x dir * 0.1) (V3.z pos + V2.z dir * 0.1).

Definition distance (a b : V2.t) : R :=
  sqrt ((V2.x a - V2.x b) ^ 2 + (V2.z a - V2.z b) ^ 2).

(** The point at distance [s] from [pos] along [dir]. *)
Definition ahead_of (pos : V3.t) (dir : V2.t) (s : R) : V2.t :=
  V2.mk (V3.x pos + s * V2.x dir) (V3.z pos + s * V2.z dir).

(** An obstacle of radius [rad] whose centre is at distance [dist] from the
    look-ahead point, on the side opposite to the unit vector [e]: [e] is
    the outward normal from the centre to the look-ahead point. *)
Definition obstacle_at (pos : V3.t) (dir e : V2.t) (dist rad : R)
  : Obstacle.t :=
  Obstacle.mk (V2.mk (V2.x (look_ahead pos dir) - dist * V2.x e)
                     (V2.z (look_ahead pos dir) - dist * V2.z e))
              rad.

(** For unit vectors, the cosine and the sine of the angle from [u] to
    [v]; their quotient is the tangent of that angle whatever the lengths. *)
Definition dot (u v : V2.t) : R := V2.x u * V2.x v + V2.z u * V2.z v.
Definition cross (u v : V2.t) : R := V2.x u * V2.z v - V2.z u * V2.x v.
Definition deviation_tan (u v : V2.t) : R := cross u v / dot u v.

(** The drone is at least the margin (28) inside the arena on both axes,
    so that there is no boundary push. *)
Definition clear_of_boundary (pos : V3.t) : Prop :=
  Rabs (V3.x pos) <= 404 /\ Rabs (V3.z pos) <= 404.

(** Two angles that differ by a whole number of turns. *)
Definition same_angle (x y : R) : Prop :=
  exists k : Z, x = y + 2 * PI * IZR k.

(** An obstacle that [steer_avoid] passes over: its centre is at least
    |radius + 1.8| away from the look-ahead point, or within 1e-6 of it. *)
Definition passed_over (pos : V3.t) (vel : V2.t) (o : Obstacle.t) : Prop :=
  Rabs (Obstacle.radius o + 1.8)
    <= distance (look_ahead pos vel) (Obstacle.pos o)
  \/ distance (look_ahead pos vel) (Obstacle.pos o) <= 1e-6.

(** The request with [drone.maxTurn] replaced by [m]. *)
Definition with_maxTurn (req : Request) (m : R) : Request :=
  mkRequest
    (Drone.mk (Drone.position (drone req)) (Drone.velocity (drone req))
              (Drone.yaw (drone req)) m (Drone.targetAlt (drone req))
              (Drone.speed (drone req)))
    (lockedTarget req) (terrain req) (obstacles req) (dt req).

(** A body that holds only the three required fields. *)
Definition json_required_only (d : Drone.t) (te : Terrain.t) (dt : R)
  : pyval :=
  PDict [("drone", json_drone d); ("terrain", json_terrain te);
         ("dt", PNum dt)].

(** The yaw error of line 186 for the desired direction [dir]. *)
Definition yaw_error_of (d : Drone.t) (dir : V2.t) : R :=
  wrap_angle (atan2 (V2.z dir) (V2.x dir) - Drone.yaw d).

(** What holds of [side] and [timer] at every moment: [side] is 1 or -1,
    and while the state machine runs the timer lies in (0, 3.0]. *)
Definition sweep_ok (s : SearchState) : Prop :=
  (side s = 1%Z \/ side s = (-1)%Z) /\
  (inited s = true -> 0 < timer s <= 3.0).

(** The state machine one searching tick after a fresh start, for a drone
    heading [yaw] and a tick of length [dt]. *)
Definition freshly_started (yaw dt : R) (s : SearchState) : Prop :=
  inited s = true /\ centerYaw s = yaw /\
  (dt < 3.0 -> phase s = hold /\ side s = 1%Z /\ timer s = 3.0 - dt) /\
  (3.0 <= dt -> phase s = transit /\ side s = (-1)%Z /\ timer s = 0.9).

(** The heading from the drone back to the origin, line 131. *)
Definition heading_home (d : Drone.t) : R :=
  atan2 (- V3.z (Drone.position d)) (- V3.x (Drone.position d)).

(** *** The access to [request.json], line 82

    Flask parses the body when [request.json] is read, and raises when the
    body is empty or is not JSON. The access is the first statement of the
    [try], so the exception is caught at line 223 before anything is
    written. *)
Inductive RequestJson : Type :=
| JsonRaises
| JsonValue (data : pyval).

(** The handler from line 81 on. *)
Definition get_controls_request (body : RequestJson) (w : World)
  : option (Response * World) :=
  match body with
  | JsonRaises => Some (Failure 500 "Internal Server Error", w)
  | JsonValue data => get_controls data w
  end.

(** The body [data] is an object whose fields all read, as the request
    [req]: every key the handler indexes is present and holds a number. *)
Definition reads_as (data : pyval) (req : Request) : Prop :=
  exists kv : list (string * pyval),
    data = PDict kv /\
    read_request (dict_get kv "drone" PNone)
                 (dict_get kv "lockedTarget" PNone)
                 (dict_get kv "terrain" PNone)
                 (dict_get kv "obstacles" (PList []))
                 (dict_get kv "dt" PNone)
    = Some req.

(** The handler run on one body after the other, each a parsed JSON
    document: the world after the last one. *)
Fixpoint run_requests (bodies : list pyval) (w : World) : option World :=
  match bodies with
  | [] => Some w
  | data :: rest =>
      match get_controls_request (JsonValue data) w with
      | Some (_, w1) => run_requests rest w1
      | None => None
      end
  end.

(** * Properties *)

(** ** Facts about [atan2] and [wrap_angle] *)

Section AngleFacts.


Lemma atan2_range (y x : R) : - PI < atan2 y x <= PI.
Proof.
  pose proof PI_RGT_0 as Hpi.
  unfold atan2.
  destruct (Rlt_dec 0 x) as [Hx | Hx].
  - pose proof (atan_bound (y / x)). lra.
  - destruct (Rlt_dec x 0) as [Hx' | Hx'].
    + destruct (Rle_dec 0 y) as [Hy | Hy].
      * assert (Hq : y / x <= 0).
        { assert (E : y = y / x * x) by (field; lra).
          destruct (Rle_dec (y / x) 0) as [Hle | Hn]; [exact Hle | exfalso].
          nra. }
        pose proof (atan_bound (y / x)) as Hb.
        assert (atan (y / x) <= 0).
        { destruct Hq as [Hq | Hq].
          - left. rewrite <- atan_0. now apply atan_increasing.
          - rewrite Hq, atan_0. lra. }
        lra.
      * assert (Hq : 0 < y / x).
        { assert (E : y = y / x * x) by (field; lra).
          destruct (Rlt_dec 0 (y / x)) as [Hlt | Hn]; [exact Hlt | exfalso].
          nra. }
        pose proof (atan_bound (y / x)) as Hb.
        assert (0 < atan (y / x)).
        { rewrite <- atan_0. now apply atan_increasing. }
        lra.
    + destruct (Rlt_dec 0 y); [lra |].
      destruct (Rlt_dec y 0); lra.
Qed.

Lemma wrap_angle_range (a : R) : - PI < wrap_angle a <= PI.
Proof. apply atan2_range. Qed.

Lemma cos_pos_interval (d : R) :
  - PI < d <= PI -> 0 < cos d -> - (PI / 2) < d < PI / 2.
Proof.
  intros [Hl Hu] Hc.
  split.
  - destruct (Rlt_dec (- (PI / 2)) d) as [H | H]; [assumption | exfalso].
    assert (cos (- d) <= 0) by (apply cos_le_0; lra).
    rewrite cos_neg in *. lra.
  - destruct (Rlt_dec d (PI / 2)) as [H | H]; [assumption | exfalso].
    assert (cos d <= 0) by (apply cos_le_0; lra).
    lra.
Qed.

Lemma cos_neg_interval (d : R) :
  - PI < d <= PI -> cos d < 0 -> d < - (PI / 2) \/ PI / 2 < d.
Proof.
  intros [Hl Hu] Hc.
  destruct (Rlt_dec d (- (PI / 2))) as [H | H]; [now left |].
  destruct (Rlt_dec (PI / 2) d) as [H' | H']; [now right | exfalso].
  assert (0 <= cos d) by (apply cos_ge_0; lra).
  lra.
Qed.

Lemma cos_zero_interval (d : R) :
  - PI < d <= PI -> cos d = 0 -> d = - (PI / 2) \/ d = PI / 2.
Proof.
  intros [Hl Hu] Hc.
  destruct (Rlt_dec d (- (PI / 2))) as [H1 | H1].
  { exfalso. assert (cos (- d) < 0) by (apply cos_lt_0; lra).
    rewrite cos_neg in *. lra. }
  destruct (Rlt_dec (PI / 2) d) as [H2 | H2].
  { exfalso. assert (cos d < 0) by (apply cos_lt_0; lra). lra. }
  destruct (Req_dec_T d (- (PI / 2))) as [E1 | E1]; [now left |].
  destruct (Req_dec_T d (PI / 2)) as [E2 | E2]; [now right |].
  exfalso. assert (0 < cos d) by (apply cos_gt_0; lra). lra.
Qed.

(** On (-PI, PI] wrapping is the identity. *)
Lemma wrap_angle_id (d : R) : - PI < d <= PI -> wrap_angle d = d.
Proof.
  intros Hd. pose proof PI_RGT_0 as Hpi.
  unfold wrap_angle, atan2.
  destruct (Rlt_dec 0 (cos d)) as [Hc | Hc].
  - apply (atan_tan d). now apply cos_pos_interval.
  - destruct (Rlt_dec (cos d) 0) as [Hc' | Hc'].
    + destruct (cos_neg_interval d Hd Hc') as [Hlo | Hhi].
      * assert (Hs : sin d < 0) by (apply sin_lt_0_var; lra).
        destruct (Rle_dec 0 (sin d)) as [Hs' | _]; [lra |].
        replace (sin d / cos d) with (tan (d + PI)).
        { rewrite atan_tan; lra. }
        unfold tan. rewrite neg_sin, neg_cos. field. lra.
      * assert (Hs : 0 <= sin d) by (apply sin_ge_0; lra).
        destruct (Rle_dec 0 (sin d)) as [_ | Hs']; [| lra].
        replace (sin d / cos d) with (tan (d - PI)).
        { rewrite atan_tan; lra. }
        unfold tan.
        replace (d - PI) with (- (PI - d)) by ring.
        rewrite sin_neg, cos_neg.
        rewrite sin_PI_x, Rtrigo_facts.cos_pi_minus. field. lra.
    + assert (Hz : cos d = 0) by lra.
      destruct (cos_zero_interval d Hd Hz) as [E | E]; subst d.
      * rewrite sin_neg, sin_PI2. now rdec.
      * rewrite sin_PI2. now rdec.
Qed.

Lemma sin_period_Z (a : R) (k : Z) : sin (a + 2 * PI * IZR k) = sin a.
Proof.
  destruct (Z_le_gt_dec 0 k) as [Hk | Hk].
  - rewrite <- (Z2Nat.id k Hk), <- INR_IZR_INZ.
    replace (a + 2 * PI * INR (Z.to_nat k))
      with (a + 2 * INR (Z.to_nat k) * PI) by ring.
    apply sin_period.
  - rewrite <- (sin_period (a + 2 * PI * IZR k) (Z.to_nat (- k))).
    f_equal. rewrite INR_IZR_INZ, Z2Nat.id by lia.
    rewrite opp_IZR. ring.
Qed.

Lemma cos_period_Z (a : R) (k : Z) : cos (a + 2 * PI * IZR k) = cos a.
Proof.
  destruct (Z_le_gt_dec 0 k) as [Hk | Hk].
  - rewrite <- (Z2Nat.id k Hk), <- INR_IZR_INZ.
    replace (a + 2 * PI * INR (Z.to_nat k))
      with (a + 2 * INR (Z.to_nat k) * PI) by ring.
    apply cos_period.
  - rewrite <- (cos_period (a + 2 * PI * IZR k) (Z.to_nat (- k))).
    f_equal. rewrite INR_IZR_INZ, Z2Nat.id by lia.
    rewrite opp_IZR. ring.
Qed.

End AngleFacts.

(** ** The heap *)

Section HeapFacts.

Lemma heap_set_length (h : list V2.t) (r : ref) (v : V2.t) :
  length (heap_set h r v) = length h.
Proof.
  revert r. induction h as [| u h IH]; intros [| r]; simpl; auto.
Qed.

Lemma heap_get_set_same (h : list V2.t) (r : ref) (v : V2.t) :
  (r < length h)%nat -> heap_get (heap_set h r v) r = v.
Proof.
  unfold heap_get. revert r.
  induction h as [| u h IH]; intros [| r] Hr; simpl in *; try lia; auto.
  apply IH. lia.
Qed.

Lemma heap_set_set (h : list V2.t) (r : ref) (u v : V2.t) :
  heap_set (heap_set h r u) r v = heap_set h r v.
Proof.
  revert r. induction h as [| a h IH]; intros [| r]; simpl; auto.
  now rewrite IH.
Qed.

Lemma heap_set_get (h : list V2.t) (r : ref) :
  heap_set h r (heap_get h r) = h.
Proof.
  unfold heap_get. revert r.
  induction h as [| a h IH]; intros [| r]; simpl; auto.
  now rewrite IH.
Qed.

Lemma heap_get_new (h : list V2.t) (v : V2.t) :
  heap_get (h ++ [v]) (length h) = v.
Proof. unfold heap_get. apply nth_middle. Qed.

Lemma heap_get_app_old (h l : list V2.t) (r : ref) :
  (r < length h)%nat -> heap_get (h ++ l) r = heap_get h r.
Proof. intros Hr. unfold heap_get. now apply app_nth1. Qed.

Lemma heap_set_new (h : list V2.t) (u v : V2.t) :
  heap_set (h ++ [u]) (length h) v = h ++ [v].
Proof. induction h as [| a h IH]; simpl; [| rewrite IH]; reflexivity. Qed.

End HeapFacts.

(** ** What each stage does to the world *)

(** Unfold the operations on the world and reduce the projections of the
    records they build. *)
Ltac run_step :=
  unfold get_x, get_z, set_x, set_z, load, store, new_dict, py_div,
    set_inited, set_centerYaw, set_side, set_timer, set_phase, set_seekDir,
    get_search, modify_search, get_control, put_control, bind, ret, raise;
  cbn [heap search_state control_state inited centerYaw side timer phase
       seekDir last_yaw last_throttle last_pitch V2.x V2.z V3.x V3.y V3.z
       fst snd negb andb].

(** The length of a heap after allocations and writes. *)
Ltac heap_len := rewrite ?heap_set_length, ?length_app; cbn [length]; lia.

(** Reads and writes at references a tick has allocated. *)
Ltac heap_simpl :=
  repeat first
    [ rewrite heap_get_new
    | rewrite heap_set_new
    | rewrite heap_set_set
    | rewrite heap_get_app_old by heap_len
    | rewrite heap_get_set_same by heap_len ].

Section Stages.

Lemma direction_finding_hunt (d : Drone.t) (t : Target.t) (dt : R)
  (w : World) :
  direction_finding d (Some t) dt w =
  (Ok (length (heap w)),
   mkWorld (heap w ++ [hunt_raw d t])
           (mkSearch false (centerYaw (search_state w)) (side (search_state w))
                     (timer (search_state w)) (phase (search_state w))
                     (seekDir (search_state w)))
           (control_state w)).
Proof.
  unfold direction_finding, hunt_raw, forward. run_step. now rdec.
Qed.

Lemma direction_finding_search (d : Drone.t) (dt : R) (w : World) :
  direction_finding d None dt w =
  (Ok (length (heap w)),
   mkWorld (heap w ++ [search_raw (sweep_step d dt (search_state w))])
           (sweep_step d dt (search_state w))
           (control_state w)).
Proof.
  destruct w as [h [i cy sd tm ph sk] c].
  unfold direction_finding, sweep_step, sweep_entry, search_raw.
  destruct i, ph; run_step; rdec; run_step; reflexivity.
Qed.

Lemma normalize_in_place_run (r : ref) (w : World) :
  (r < length (heap w))%nat ->
  normalize_in_place r w =
  (Ok tt,
   mkWorld (heap_set (heap w) r (normalize_value (heap_get (heap w) r)))
           (search_state w) (control_state w)).
Proof.
  intros Hr. destruct w as [h s c].
  unfold normalize_in_place, normalize_value. run_step. cbn [heap] in Hr.
  rdec.
  - rewrite heap_get_set_same by assumption. run_step.
    now rewrite heap_set_set.
  - now rewrite heap_set_get.
Qed.
Lemma steering_smoothing_snap (d : Drone.t) (raw : ref) (is_hunting : bool)
  (dt : R) (w : World) :
  (raw < length (heap w))%nat ->
  exists h',
  steering_smoothing d raw is_hunting true dt w =
  (Ok raw, mkWorld h' (with_seekDir (search_state w) raw) (control_state w))
  /\ heap_get h' raw = normalize_value (heap_get (heap w) raw)
  /\ (raw < length h')%nat.
Proof.
  intros Hr. destruct w as [h [i cy sd tm ph sk] c]. cbn [heap] in Hr.
  unfold steering_smoothing, with_seekDir.
  destruct sk as [r0 |]; run_step;
    rewrite normalize_in_place_run by (cbn [heap]; heap_len);
    run_step; eexists; (split; [reflexivity |]); heap_simpl;
    (split; [reflexivity | heap_len]).
Qed.

Lemma steering_smoothing_blend (d : Drone.t) (raw : ref) (is_hunting : bool)
  (dt : R) (w : World) :
  (raw < length (heap w))%nat ->
  exists r h',
  steering_smoothing d raw is_hunting false dt w =
  (Ok r, mkWorld h' (with_seekDir (search_state w) r) (control_state w))
  /\ heap_get h' r =
     normalize_value (blend (current_seekDir d w) (heap_get (heap w) raw)
                            (smoothing_factor is_hunting dt))
  /\ (r < length h')%nat.
Proof.
  intros Hr. destruct w as [h [i cy sd tm ph sk] c]. cbn [heap] in Hr.
  unfold steering_smoothing, with_seekDir, current_seekDir, smoothing_factor,
    blend.
  destruct sk as [r0 |]; run_step; heap_simpl; run_step; heap_simpl;
    rewrite normalize_in_place_run by (cbn [heap]; heap_len);
    run_step; heap_simpl; do 2 eexists; (split; [reflexivity |]);
    heap_simpl; (split; [reflexivity | heap_len]).
Qed.

Lemma avoidance_run (d : Drone.t) (r : ref) (obs : list Obstacle.t)
  (w : World) :
  (r < length (heap w))%nat ->
  avoidance d r obs w =
  (Ok tt,
   mkWorld (heap_set (heap w) r
              (avoid_value (Drone.position d) obs (heap_get (heap w) r)))
           (search_state w) (control_state w)).
Proof.
  intros Hr. destruct w as [h s c]. cbn [heap] in Hr.
  unfold avoidance, avoid_value. run_step. heap_simpl. run_step.
  rewrite normalize_in_place_run by (cbn [heap]; heap_len).
  run_step. heap_simpl. reflexivity.
Qed.

Lemma controls_calculation_run (d : Drone.t) (te : Terrain.t) (r : ref)
  (dt : R) (w : World) :
  Drone.maxTurn d <> 0 ->
  controls_calculation d te r dt w =
  (Ok (raw_controls d te (heap_get (heap w) r) dt), w).
Proof.
  intros Hm. unfold controls_calculation, raw_controls. run_step.
  destruct (Req_dec_T (Drone.maxTurn d) 0) as [E | _]; [contradiction |].
  reflexivity.
Qed.

Lemma controls_calculation_zero (d : Drone.t) (te : Terrain.t) (r : ref)
  (dt : R) (w : World) :
  Drone.maxTurn d = 0 ->
  controls_calculation d te r dt w = (Raised, w).
Proof.
  intros Hm. unfold controls_calculation. run_step.
  destruct (Req_dec_T (Drone.maxTurn d) 0) as [_ | N]; [| contradiction].
  reflexivity.
Qed.

Lemma output_smoothing_run (raw : Controls.t) (dt : R) (w : World) :
  output_smoothing raw dt w =
  (Ok (Controls.mk (last_yaw (smooth_controls (control_state w) raw dt))
                   (last_throttle (smooth_controls (control_state w) raw dt))
                   (last_pitch (smooth_controls (control_state w) raw dt))),
   mkWorld (heap w) (search_state w)
           (smooth_controls (control_state w) raw dt)).
Proof. reflexivity. Qed.

End Stages.

Section Tick.

Lemma desired_direction_run (req : Request) (w : World) :
  exists r h',
  desired_direction req w =
  (Ok r, mkWorld h' (with_seekDir (mode_state req (search_state w)) r)
                 (control_state w))
  /\ heap_get h' r = smoothed_value req w
  /\ (r < length h')%nat.
Proof.
  destruct req as [d tg te obs dt0]. destruct w as [h s c].
  unfold desired_direction, smoothed_value, mode_state, raw_value, is_hunting.
  cbn [lockedTarget drone dt obstacles terrain].
  unfold bind at 1, get_search at 1. cbn [search_state heap].
  unfold bind at 1.
  destruct tg as [t |].
  - rewrite direction_finding_hunt. cbn [heap search_state control_state].
    destruct (inited s) eqn:Hi; cbn [andb].
    + destruct (steering_smoothing_snap d (length h) true dt0
                  (mkWorld (h ++ [hunt_raw d t])
                     (mkSearch false (centerYaw s) (side s) (timer s)
                        (phase s) (seekDir s)) c))
        as (h' & E & Hv & Hl); [cbn [heap]; heap_len |].
      rewrite E. exists (length h), h'. split; [reflexivity |].
      split; [| exact Hl]. rewrite Hv. cbn [heap]. now heap_simpl.
    + destruct (steering_smoothing_blend d (length h) true dt0
                  (mkWorld (h ++ [hunt_raw d t])
                     (mkSearch false (centerYaw s) (side s) (timer s)
                        (phase s) (seekDir s)) c))
        as (r & h' & E & Hv & Hl); [cbn [heap]; heap_len |].
      rewrite E. exists r, h'. split; [reflexivity |].
      split; [| exact Hl]. rewrite Hv.
      unfold current_seekDir. cbn [heap search_state seekDir].
      now heap_simpl.
  - rewrite direction_finding_search.
    cbn [heap search_state control_state andb].
    destruct (steering_smoothing_blend d (length h) false dt0
                (mkWorld (h ++ [search_raw (sweep_step d dt0 s)])
                   (sweep_step d dt0 s) c))
      as (r & h' & E & Hv & Hl); [cbn [heap]; heap_len |].
    rewrite E. exists r, h'. split; [reflexivity |].
    split; [| exact Hl]. rewrite Hv.
    unfold current_seekDir. cbn [heap search_state].
    replace (seekDir (sweep_step d dt0 s)) with (seekDir s).
    + now heap_simpl.
    + unfold sweep_step, sweep_entry.
      destruct (inited s), (phase s); rdec; reflexivity.
Qed.

Lemma get_controls_body_ok (req : Request) (w : World) :
  Drone.maxTurn (drone req) <> 0 ->
  exists r h',
  let s' := with_seekDir (mode_state req (search_state w)) r in
  let c' := smooth_controls (control_state w)
              (raw_controls (drone req) (terrain req)
                            (final_direction req w) (dt req)) (dt req) in
  get_controls_body req w =
  (Ok (Success (controls_of c') s' (Some (final_direction req w))
               (status_of req)),
   mkWorld h' s' c')
  /\ heap_get h' r = final_direction req w.
Proof.
  intros Hm.
  destruct (desired_direction_run req w) as (r & h1 & E & Hv & Hl).
  exists r, (heap_set h1 r (final_direction req w)).
  unfold get_controls_body. unfold bind at 1. rewrite E.
  unfold bind at 1. rewrite avoidance_run by exact Hl.
  cbn [heap search_state control_state].
  unfold bind at 1. rewrite controls_calculation_run by exact Hm.
  cbn [heap]. rewrite heap_get_set_same by exact Hl.
  unfold bind at 1. rewrite output_smoothing_run.
  cbn [heap search_state control_state].
  unfold seekDir_value, with_seekDir, final_direction, controls_of, status_of,
    is_hunting.
  cbn [heap search_state seekDir]. rewrite Hv.
  rewrite !heap_get_set_same by exact Hl. split; reflexivity.
Qed.

Lemma get_controls_body_zero (req : Request) (w : World) :
  Drone.maxTurn (drone req) = 0 ->
  exists r h',
  get_controls_body req w =
  (Raised,
   mkWorld h' (with_seekDir (mode_state req (search_state w)) r)
           (control_state w))
  /\ heap_get h' r = final_direction req w.
Proof.
  intros Hm.
  destruct (desired_direction_run req w) as (r & h1 & E & Hv & Hl).
  exists r, (heap_set h1 r (final_direction req w)).
  unfold get_controls_body. unfold bind at 1. rewrite E.
  unfold bind at 1. rewrite avoidance_run by exact Hl.
  cbn [heap search_state control_state].
  unfold bind at 1. rewrite controls_calculation_zero by exact Hm.
  unfold final_direction. rewrite Hv.
  split; [reflexivity |]. now rewrite heap_get_set_same by exact Hl.
Qed.

(** Whatever the outcome, the state machine after a tick is the one the
    mode selection leaves, with [seekDir] bound to the final direction. *)
Lemma tick_search_state (req : Request) (w : World) :
  exists r,
  search_state (snd (tick req w)) =
    with_seekDir (mode_state req (search_state w)) r
  /\ seekDir_value (snd (tick req w)) = Some (final_direction req w).
Proof.
  unfold tick, seekDir_value.
  destruct (Req_dec_T (Drone.maxTurn (drone req)) 0) as [Hz | Hn].
  - destruct (get_controls_body_zero req w Hz) as (r & h' & E & Hv).
    rewrite E. exists r. cbn [snd search_state heap with_seekDir seekDir].
    now rewrite Hv.
  - destruct (get_controls_body_ok req w Hn) as (r & h' & E & Hv).
    cbv zeta in E. rewrite E. exists r.
    cbn [snd search_state heap with_seekDir seekDir].
    now rewrite Hv.
Qed.

Lemma tick_ok (req : Request) (w : World) :
  Drone.maxTurn (drone req) <> 0 ->
  exists s' sd,
  let c' := smooth_controls (control_state w)
              (raw_controls (drone req) (terrain req)
                            (final_direction req w) (dt req)) (dt req) in
  fst (tick req w) = Success (controls_of c') s' sd (status_of req)
  /\ control_state (snd (tick req w)) = c'.
Proof.
  intros Hn. unfold tick.
  destruct (get_controls_body_ok req w Hn) as (r & h' & E & Hv).
  cbv zeta in E. rewrite E. do 2 eexists. split; reflexivity.
Qed.

End Tick.

(** ** The claims *)

(** C8. Over the reals, [wrap_angle x] lies in (-PI, PI] for every [x], and
    [wrap_angle a = wrap_angle (a + 2 PI k)] for every real [a] and integer
    [k]. *)
Theorem C8_wrap_angle_range_and_period :
  (forall x : R, - PI < wrap_angle x <= PI) /\
  (forall (a : R) (k : Z), wrap_angle a = wrap_angle (a + 2 * PI * IZR k)).
Proof.
  split.
  - exact wrap_angle_range.
  - intros a k. unfold wrap_angle.
    now rewrite sin_period_Z, cos_period_Z.
Qed.

(** ** Directions of a tick *)

Section Directions.

Lemma V2_eq (a b : V2.t) : V2.x a = V2.x b -> V2.z a = V2.z b -> a = b.
Proof. destruct a, b. cbn. now intros -> ->. Qed.

Lemma sqrt_of_square (a b : R) : 0 <= b -> a = b * b -> sqrt a = b.
Proof. intros Hb ->. now apply sqrt_square. Qed.

Lemma normalize_value_unit (v : V2.t) :
  V2.x v ^ 2 + V2.z v ^ 2 = 1 -> normalize_value v = v.
Proof.
  intros Hu. unfold normalize_value. rewrite Hu, sqrt_1.
  rdec. apply V2_eq; cbn [V2.x V2.z]; field.
Qed.

Lemma forward_unit (d : Drone.t) :
  V2.x (forward d) ^ 2 + V2.z (forward d) ^ 2 = 1.
Proof.
  unfold forward. cbn [V2.x V2.z].
  pose proof (sin2_cos2 (Drone.yaw d)) as H. unfold Rsqr in H. lra.
Qed.

Lemma hunt_raw_unit (d : Drone.t) (t : Target.t) :
  V2.x (hunt_raw d t) ^ 2 + V2.z (hunt_raw d t) ^ 2 = 1.
Proof.
  unfold hunt_raw.
  set (fx := V2.x (Target.position t) - V3.x (Drone.position d)
             + V2.x (Target.velocity t) * 0.6).
  set (fz := V2.z (Target.position t) - V3.z (Drone.position d)
             + V2.z (Target.velocity t) * 0.6).
  cbv zeta. destruct (Rgt_dec (fx ^ 2 + fz ^ 2) 1e-6) as [Hl | Hl].
  - cbn [V2.x V2.z].
    assert (Hp : 0 < fx ^ 2 + fz ^ 2) by lra.
    assert (Hs : 0 < sqrt (fx ^ 2 + fz ^ 2)) by now apply sqrt_lt_R0.
    pose proof (sqrt_sqrt (fx ^ 2 + fz ^ 2) (Rlt_le _ _ Hp)) as Hq.
    set (q := sqrt (fx ^ 2 + fz ^ 2)) in *.
    replace ((fx * (1 / q)) ^ 2 + (fz * (1 / q)) ^ 2)
      with ((fx ^ 2 + fz ^ 2) / (q * q)) by (field; lra).
    rewrite Hq. field. lra.
  - apply forward_unit.
Qed.

Lemma raw_direction_eq (req : Request) (w : World) :
  raw_direction req w = Some (raw_value req (search_state w)).
Proof.
  unfold raw_direction, raw_value.
  destruct (lockedTarget req) as [t |].
  - rewrite direction_finding_hunt. cbn [heap]. now heap_simpl.
  - rewrite direction_finding_search. cbn [heap]. now heap_simpl.
Qed.

Lemma smoothed_direction_eq (req : Request) (w : World) :
  smoothed_direction req w = Some (smoothed_value req w).
Proof.
  unfold smoothed_direction.
  destruct (desired_direction_run req w) as (r & h' & E & Hv & _).
  rewrite E. cbn [heap]. now rewrite Hv.
Qed.

End Directions.

(** C5. On a hunting tick the raw direction is the normalization of
    (target.position - drone.position) + target.velocity * 0.6 in the
    (x, z) plane when the squared length of that vector exceeds 1e-6, and
    the drone's forward vector (cos yaw, sin yaw) otherwise. *)
Theorem C5_hunting_raw_direction :
  forall (d : Drone.t) (t : Target.t) (te : Terrain.t)
         (obs : list Obstacle.t) (dt : R) (w : World),
    let req := mkRequest d (Some t) te obs dt in
    let v := spec_intercept d t in
    (norm_sq v > 1e-6 -> raw_direction req w = Some (spec_normalize v)) /\
    (norm_sq v <= 1e-6 ->
     raw_direction req w
     = Some (V2.mk (cos (Drone.yaw d)) (sin (Drone.yaw d)))).
Proof.
  intros d t te obs dt0 w req v.
  rewrite raw_direction_eq. unfold raw_value, req. cbn [lockedTarget drone].
  unfold hunt_raw, forward, spec_normalize, norm_sq, v, spec_intercept.
  cbn [V2.x V2.z].
  split; intros Hl; rdec; f_equal.
  apply V2_eq; cbn [V2.x V2.z]; unfold Rdiv; ring.
Qed.

Lemma C5_hunting_raw_direction_witness :
  let d := Drone.mk (V3.mk 0 0 0) (V3.mk 0 0 0) 0 1 0 0 in
  let t := Target.mk (V2.mk 10 0) (V2.mk 0 0) in
  raw_direction (mkRequest d (Some t) (Terrain.mk 0 0) [] 1) initial_world
  = Some (spec_normalize (spec_intercept d t)).
Proof.
  intros d t.
  apply (proj1 (C5_hunting_raw_direction d t (Terrain.mk 0 0) [] 1
                  initial_world)).
  unfold norm_sq, spec_intercept, d, t. cbn [V2.x V2.z V3.x V3.z
    Target.position Target.velocity Drone.position]. lra.
Defined.

(** C9. A hunting tick leaves [centerYaw], [side], [phase] and [timer] as
    they were; of the state machine it writes only [inited], which becomes
    false, and [seekDir]. *)
Theorem C9_hunting_tick_frame :
  forall (d : Drone.t) (t : Target.t) (te : Terrain.t)
         (obs : list Obstacle.t) (dt : R) (w : World),
    let s := search_state w in
    let s' := search_state (snd (tick (mkRequest d (Some t) te obs dt) w)) in
    centerYaw s' = centerYaw s /\ side s' = side s /\ phase s' = phase s /\
    timer s' = timer s /\ inited s' = false.
Proof.
  intros d t te obs dt0 w s s'. subst s'.
  destruct (tick_search_state (mkRequest d (Some t) te obs dt0) w)
    as (r & E & _).
  rewrite E. unfold with_seekDir, mode_state.
  cbn [lockedTarget inited centerYaw side timer phase].
  repeat split; reflexivity.
Qed.

Section Examples.

Lemma steer_avoid_clear (pos : V3.t) (vel : V2.t) :
  Rabs (V3.x pos) <= 404 -> Rabs (V3.z pos) <= 404 ->
  steer_avoid pos vel [] = V3.mk 0 0 0.
Proof.
  intros Hx Hz. unfold steer_avoid, HALF. cbn [fold_left V3.x V3.y V3.z].
  rdec. f_equal; lra.
Qed.

Lemma final_direction_eq (req : Request) (w : World) :
  seekDir_value (snd (tick req w))
  = Some (avoid_value (Drone.position (drone req)) (obstacles req)
                      (smoothed_value req w)).
Proof.
  destruct (tick_search_state req w) as (r & _ & E). exact E.
Qed.

End Examples.

(** C4. On the tick where hunting begins while [inited] is still true, the
    smoothing stage yields the raw intercept direction itself, with no
    blending; and with the drone at (0,0,0), yaw 0, no obstacles and a
    locked target at (10,0,0) with zero velocity, [seekDir] is (1,0) after
    that tick. *)
Theorem C4_acquisition_snap :
  forall (w : World), inited (search_state w) = true ->
    (forall (d : Drone.t) (t : Target.t) (te : Terrain.t)
            (obs : list Obstacle.t) (dt : R),
       let req := mkRequest d (Some t) te obs dt in
       smoothed_direction req w = raw_direction req w) /\
    (forall (y ty : R) (vel : V3.t) (maxTurn targetAlt speed : R)
            (te : Terrain.t) (dt : R),
       let d := Drone.mk (V3.mk 0 y 0) vel 0 maxTurn targetAlt speed in
       let t := Target.mk (V2.mk 10 0) (V2.mk 0 0) in
       seekDir_value (snd (tick (mkRequest d (Some t) te [] dt) w))
       = Some (V2.mk 1 0)).
Proof.
  intros w Hi. split.
  - intros d t te obs dt0 req.
    rewrite smoothed_direction_eq, raw_direction_eq.
    unfold smoothed_value, raw_value, is_hunting, req.
    cbn [lockedTarget drone]. rewrite Hi. cbn [andb].
    now rewrite normalize_value_unit by apply hunt_raw_unit.
  - intros y ty vel maxTurn targetAlt speed te dt0 d t.
    rewrite final_direction_eq.
    unfold smoothed_value, raw_value, is_hunting.
    cbn [lockedTarget drone obstacles]. rewrite Hi. cbn [andb].
    rewrite normalize_value_unit by apply hunt_raw_unit.
    assert (Hraw : hunt_raw d t = V2.mk 1 0).
    { unfold hunt_raw, d, t.
      cbn [V2.x V2.z V3.x V3.z Target.position Target.velocity
           Drone.position].
      replace (10 - 0 + 0 * 0.6) with 10 by lra.
      replace (0 - 0 + 0 * 0.6) with 0 by lra.
      replace (10 ^ 2 + 0 ^ 2) with 100 by lra.
      rewrite (sqrt_of_square 100 10) by lra.
      rdec. apply V2_eq; cbn [V2.x V2.z]; lra. }
    rewrite Hraw. unfold avoid_value.
    rewrite steer_avoid_clear
      by (unfold d; cbn [Drone.position V3.x V3.z]; rewrite Rabs_R0; lra).
    cbn [V2.x V2.z V3.x V3.z].
    replace (1 + 0) with 1 by lra. replace (0 + 0) with 0 by lra.
    f_equal. apply normalize_value_unit. cbn [V2.x V2.z]. lra.
Qed.

Lemma C4_acquisition_snap_witness :
  let w := mkWorld [] (mkSearch true 0 1 3.0 hold None) initial_control in
  let d := Drone.mk (V3.mk 0 0 0) (V3.mk 0 0 0) 0 1 0 0 in
  let t := Target.mk (V2.mk 10 0) (V2.mk 0 0) in
  seekDir_value (snd (tick (mkRequest d (Some t) (Terrain.mk 0 0) [] 1) w))
  = Some (V2.mk 1 0).
Proof.
  intros w d t.
  exact (proj2 (C4_acquisition_snap w eq_refl)
               0 0 (V3.mk 0 0 0) 1 0 0 (Terrain.mk 0 0) 1).
Defined.

(** C1. The failing input: from the initial state, a hunting tick with an
    obstacle beside the look-ahead point. The smoothing stage yields (1, 0),
    and the tick succeeds, but the [seekDir] left in [search_state] is
    (0.8, -0.6): the direction after the avoidance push and its
    renormalization, because [desired_dir] is the same dictionary as the one
    stored at line 171. *)
Theorem C1_seekDir_holds_avoided_direction :
  let d := Drone.mk (V3.mk 0 0 0) (V3.mk 0 0 0) 0 1 0 0 in
  let t := Target.mk (V2.mk 10 0) (V2.mk 0 0) in
  let o := Obstacle.mk (V2.mk 0.1 1) 2.2 in
  let req := mkRequest d (Some t) (Terrain.mk 0 0) [o] 0.1 in
  (exists c s sd st, fst (tick req initial_world) = Success c s sd st) /\
  smoothed_direction req initial_world = Some (V2.mk 1 0) /\
  seekDir_value (snd (tick req initial_world)) = Some (V2.mk 0.8 (-0.6)) /\
  seekDir_value (snd (tick req initial_world))
  <> smoothed_direction req initial_world.
Proof.
  intros d t o req.
  assert (Hraw : hunt_raw d t = V2.mk 1 0).
  { unfold hunt_raw, d, t.
    cbn [V2.x V2.z V3.x V3.z Target.position Target.velocity Drone.position].
    replace (10 - 0 + 0 * 0.6) with 10 by lra.
    replace (0 - 0 + 0 * 0.6) with 0 by lra.
    replace (10 ^ 2 + 0 ^ 2) with 100 by lra.
    rewrite (sqrt_of_square 100 10) by lra.
    rdec. apply V2_eq; cbn [V2.x V2.z]; lra. }
  assert (Hsm : smoothed_value req initial_world = V2.mk 1 0).
  { unfold smoothed_value, raw_value, is_hunting, req, initial_world,
      initial_search.
    cbn [lockedTarget drone search_state inited seekDir andb dt].
    rewrite Hraw. unfold blend, forward, d. cbn [Drone.yaw V2.x V2.z].
    rewrite cos_0, sin_0.
    replace (1 + (1 - 1) * smoothing_factor true 0.1) with 1 by lra.
    replace (0 + (0 - 0) * smoothing_factor true 0.1) with 0 by lra.
    apply normalize_value_unit. cbn [V2.x V2.z]. lra. }
  assert (Hfin : seekDir_value (snd (tick req initial_world))
                 = Some (V2.mk 0.8 (-0.6))).
  { rewrite final_direction_eq, Hsm. f_equal.
    unfold avoid_value, steer_avoid, obstacle_push, HALF, req, d, o.
    cbn [drone obstacles Drone.position fold_left V2.x V2.z V3.x V3.y V3.z
         Obstacle.pos Obstacle.radius].
    rewrite Rabs_R0.
    replace ((0 + 1 * 0.1 - 0.1) ^ 2 + (0 + 0 * 0.1 - 1) ^ 2) with 1 by field.
    rewrite sqrt_1. rdec.
    unfold normalize_value. cbn [V2.x V2.z V3.x V3.z].
    match goal with |- context [sqrt ?e] =>
      rewrite (sqrt_of_square e 1.25) by (try field; lra) end.
    rdec. apply V2_eq; cbn [V2.x V2.z]; lra. }
  split; [| split; [| split]].
  - destruct (tick_ok req initial_world) as (s' & sd & E & _).
    { unfold req, d. cbn [drone Drone.maxTurn]. lra. }
    cbv zeta in E. rewrite E. eauto.
  - now rewrite smoothed_direction_eq, Hsm.
  - exact Hfin.
  - rewrite Hfin, smoothed_direction_eq, Hsm. intros E.
    injection E as E1 E2. lra.
Qed.

(** ** Output bounds *)

Section OutputBounds.

Lemma clamp_bounds (v lo hi : R) : lo <= hi -> lo <= clamp v lo hi <= hi.
Proof.
  intros H. unfold clamp, Rmax, Rmin.
  destruct (Rle_dec v hi); destruct (Rle_dec lo _); lra.
Qed.




Lemma smoothing_factor_range (dt : R) :
  dt > 0 -> 0 < 1.0 - exp (- dt * 10.0) < 1.
Proof.
  intros Hdt.
  pose proof (exp_pos (- dt * 10.0)) as Hp.
  assert (exp (- dt * 10.0) < exp 0) by (apply exp_increasing; lra).
  rewrite exp_0 in *. lra.
Qed.




End OutputBounds.



(** ** The sweep state machine *)

Section Sweep.

Lemma tick_searching (d : Drone.t) (te : Terrain.t) (obs : list Obstacle.t)
  (dt0 : R) (w : World) :
  exists r,
    search_state (snd (tick (mkRequest d None te obs dt0) w))
    = with_seekDir (sweep_step d dt0 (search_state w)) r.
Proof.
  destruct (tick_search_state (mkRequest d None te obs dt0) w) as (r & E & _).
  exists r. exact E.
Qed.

(** One searching tick, in terms of the state machine after its
    (re)initialisation. *)
Lemma sweep_step_cases (d : Drone.t) (dt0 : R) (s : SearchState) :
  let s0 := sweep_entry d s in
  let s' := sweep_step d dt0 s in
  inited s' = true /\
  (timer s0 - dt0 <= 0 -> phase s0 = hold ->
   side s' = (- side s0)%Z /\ phase s' = transit /\
   timer s' = SWEEP_TRANSIT) /\
  (timer s0 - dt0 <= 0 -> phase s0 = transit ->
   side s' = side s0 /\ phase s' = hold /\ timer s' = SWEEP_HOLD) /\
  (timer s0 - dt0 > 0 ->
   side s' = side s0 /\ phase s' = phase s0 /\ timer s' = timer s0 - dt0).
Proof.
  intros s0 s'. subst s'. unfold sweep_step. fold s0.
  assert (Hi : inited s0 = true).
  { unfold s0, sweep_entry.
    destruct (inited s) eqn:E; [exact E | reflexivity]. }
  cbv zeta. destruct (Rle_dec (timer s0 - dt0) 0) as [Hle | Hgt].
  - destruct (phase s0) eqn:Hp;
      cbn [inited side phase timer]; repeat split; intros; try lra;
      try discriminate; try assumption.
    lia.
  - cbn [inited side phase timer]. repeat split; intros; try lra; assumption.
Qed.

Lemma run_ticks_snoc (reqs : list Request) (req : Request) :
  forall w : World,
    snd (run_ticks (reqs ++ [req]) w)
    = snd (tick req (snd (run_ticks reqs w))).
Proof.
  induction reqs as [| r reqs IH]; intros w.
  - cbn. destruct (tick req w). reflexivity.
  - cbn [app run_ticks]. destruct (tick r w) as [resp w1].
    specialize (IH w1).
    destruct (run_ticks (reqs ++ [req]) w1) as [resps2 w2].
    destruct (run_ticks reqs w1) as [resps1 w1'].
    cbn [snd] in *. exact IH.
Qed.

(** While the timer stays positive nothing but the timer changes. *)
Lemma sweep_dwell (dt0 : R) (reqs : list Request) :
  0 <= dt0 ->
  forall w : World,
    Forall (searching_step dt0) reqs ->
    inited (search_state w) = true ->
    timer (search_state w) - INR (length reqs) * dt0 > 0 ->
    let s := search_state w in
    let s' := sweep_after reqs w in
    inited s' = true /\ phase s' = phase s /\ side s' = side s /\
    timer s' = timer s - INR (length reqs) * dt0.
Proof.
  intros Hdt. unfold sweep_after.
  induction reqs as [| req reqs IH]; intros w Hall Hi Ht.
  - cbn. repeat split; try assumption. lra.
  - inversion Hall as [| ? ? [Hnone Hdt0] Hrest]; subst.
    destruct req as [d tg te obs dtr]. cbn [lockedTarget dt] in *. subst tg.
    rewrite length_cons, S_INR in Ht.
    pose proof (pos_INR (length reqs)) as Hlen.
    destruct (tick_searching d te obs dtr w) as (r & E).
    pose proof (sweep_step_cases d dtr (search_state w)) as Hc.
    cbv zeta in Hc. destruct Hc as (Hi1 & _ & _ & Hstay).
    assert (E0 : sweep_entry d (search_state w) = search_state w).
    { unfold sweep_entry. now rewrite Hi. }
    rewrite E0 in Hstay.
    destruct Hstay as (Hsd & Hph & Htm); [nra |].
    cbn [run_ticks].
    destruct (tick (mkRequest d None te obs dtr) w) as [resp w1].
    cbn [snd] in E.
    specialize (IH w1 Hrest).
    destruct (run_ticks reqs w1) as [resps w2]. cbn [snd] in *.
    rewrite E in IH. unfold with_seekDir in IH.
    cbn [inited phase side timer] in IH.
    destruct IH as (A & B & C & D); [exact Hi1 | rewrite Htm; nra |].
    rewrite A, B, C, D, Hsd, Hph, Htm, length_cons, S_INR.
    repeat split; try reflexivity. lra.
Qed.

(** The number of ticks a countdown from [T] lasts. *)
Lemma countdown_ticks (T dt0 : R) :
  0 < T -> 0 < dt0 ->
  exists n : nat,
    (1 <= n)%nat /\
    T - INR n * dt0 <= 0 < T - INR (n - 1) * dt0.
Proof.
  intros HT Hdt.
  destruct (archimed (- (T / dt0))) as [Hup1 Hup2].
  set (z := up (- (T / dt0))) in *.
  assert (Hq : T = T / dt0 * dt0) by (field; lra).
  assert (Hqpos : 0 < T / dt0) by (apply Rdiv_lt_0_compat; assumption).
  assert (Hz : (z <= 0)%Z).
  { assert (z < 1)%Z by (apply lt_IZR; lra). lia. }
  exists (Z.to_nat (1 - z)).
  assert (Hn : INR (Z.to_nat (1 - z)) = 1 - IZR z).
  { rewrite INR_IZR_INZ, Z2Nat.id by lia. now rewrite minus_IZR. }
  assert (Hge : (1 <= Z.to_nat (1 - z))%nat) by lia.
  split; [exact Hge |].
  rewrite minus_INR by exact Hge. rewrite Hn. cbn [INR].
  split; nra.
Qed.

(** A dwell of [n] ticks: the state is kept for [n - 1] ticks and the
    transition happens on the [n]-th. *)
Lemma sweep_dwell_then_switch (dt0 : R) (n : nat) (reqs : list Request)
  (w : World) :
  0 < dt0 ->
  Forall (searching_step dt0) reqs ->
  inited (search_state w) = true ->
  (1 <= n)%nat ->
  timer (search_state w) - INR n * dt0 <= 0
    < timer (search_state w) - INR (n - 1) * dt0 ->
  let s := search_state w in
  let s' := sweep_after reqs w in
  ((length reqs < n)%nat ->
   inited s' = true /\ phase s' = phase s /\ side s' = side s) /\
  (length reqs = n ->
   inited s' = true /\
   match phase s with
   | hold => phase s' = transit /\ side s' = (- side s)%Z /\
             timer s' = SWEEP_TRANSIT
   | transit => phase s' = hold /\ side s' = side s /\
                timer s' = SWEEP_HOLD
   end).
Proof.
  intros Hdt Hall Hi Hn [Hle Hgt] s s'. subst s s'. split.
  - intros Hlen.
    destruct (sweep_dwell dt0 reqs (Rlt_le _ _ Hdt) w Hall Hi)
      as (A & B & C & _).
    { assert (INR (length reqs) <= INR (n - 1)) by (apply le_INR; lia).
      nra. }
    repeat split; assumption.
  - intros Hlen.
    destruct (exists_last (l := reqs)) as (front & req & Eq).
    { intros ->. cbn in Hlen. lia. }
    subst reqs. rewrite length_app in Hlen. cbn [length] in Hlen.
    apply Forall_app in Hall. destruct Hall as [Hfront Hlast].
    inversion Hlast as [| ? ? [Hnone Hdt0] _]; subst.
    assert (Hfl : length front = (length front + 1 - 1)%nat) by lia.
    destruct (sweep_dwell (dt req) front (Rlt_le _ _ Hdt) w Hfront Hi)
      as (A & B & C & D).
    { rewrite Hfl. exact Hgt. }
    unfold sweep_after in *. rewrite run_ticks_snoc.
    set (w1 := snd (run_ticks front w)) in *.
    destruct req as [d tg te obs dtr]. cbn [lockedTarget dt] in *. subst tg.
    destruct (tick_searching d te obs dtr w1) as (r & E).
    rewrite E. unfold with_seekDir. cbn [inited phase side timer].
    pose proof (sweep_step_cases d dtr (search_state w1)) as Hc.
    cbv zeta in Hc. destruct Hc as (Hi1 & Hhold & Htransit & _).
    assert (E0 : sweep_entry d (search_state w1) = search_state w1).
    { unfold sweep_entry. now rewrite A. }
    rewrite E0 in *.
    assert (Hdown : timer (search_state w1) - dtr <= 0).
    { rewrite D. rewrite plus_INR in Hle. cbn [INR] in Hle. lra. }
    split; [exact Hi1 |].
    destruct (phase (search_state w)) eqn:Hp.
    + destruct (Hhold Hdown B) as (X & Y & Z). rewrite X, Y, Z, C. auto.
    + destruct (Htransit Hdown B) as (X & Y & Z). rewrite X, Y, Z, C. auto.
Qed.

Lemma run_ticks_cons (req : Request) (reqs : list Request) (w : World) :
  snd (run_ticks (req :: reqs) w) = snd (run_ticks reqs (snd (tick req w))).
Proof.
  cbn [run_ticks]. destruct (tick req w) as [resp w1]. cbn [snd].
  destruct (run_ticks reqs w1) as [resps w2]. reflexivity.
Qed.

(** The first dwell after the state machine is started afresh: the tick
    that starts it counts. *)
Lemma sweep_first_dwell (dt0 : R) (n : nat) (reqs : list Request)
  (w : World) :
  0 < dt0 ->
  Forall (searching_step dt0) reqs ->
  inited (search_state w) = false ->
  SWEEP_HOLD - INR n * dt0 <= 0 < SWEEP_HOLD - INR (n - 1) * dt0 ->
  let s' := sweep_after reqs w in
  ((1 <= length reqs < n)%nat ->
   inited s' = true /\ phase s' = hold /\ side s' = 1%Z) /\
  (reqs <> [] -> length reqs = n ->
   inited s' = true /\ phase s' = transit /\ side s' = (-1)%Z /\
   timer s' = SWEEP_TRANSIT).
Proof.
  intros Hdt Hall Hi [Hle Hgt] s'. subst s'. unfold sweep_after.
  destruct reqs as [| req rest].
  { split; [cbn [length]; lia | intros N; now contradiction N]. }
  inversion Hall as [| ? ? [Hnone Hdt0] Hrest]; subst.
  destruct req as [d tg te obs dtr]. cbn [lockedTarget dt] in *. subst tg.
  rewrite run_ticks_cons.
  destruct (tick_searching d te obs dtr w) as (r & E).
  set (w1 := snd (tick (mkRequest d None te obs dtr) w)) in *.
  pose proof (sweep_step_cases d dtr (search_state w)) as Hc.
  cbv zeta in Hc. destruct Hc as (Hi1 & Hhold & _ & Hstay).
  assert (E0 : sweep_entry d (search_state w)
               = mkSearch true (Drone.yaw d) 1 SWEEP_HOLD hold
                          (seekDir (search_state w))).
  { unfold sweep_entry. now rewrite Hi. }
  rewrite E0 in Hhold, Hstay. cbn [timer phase side] in Hhold, Hstay.
  destruct n as [| [| n']].
  - cbn [INR] in Hle. unfold SWEEP_HOLD in Hle. lra.
  - (* the first tick is the whole dwell *)
    cbn [INR] in Hle. split; [cbn [length]; lia |].
    intros _ Hlen. cbn [length] in Hlen.
    assert (rest = []) by (destruct rest; [reflexivity | cbn in Hlen; lia]).
    subst rest. cbn [run_ticks snd]. rewrite E.
    unfold with_seekDir. cbn [inited phase side timer].
    destruct Hhold as (X & Y & Z); [lra | reflexivity |].
    rewrite X, Y, Z. auto.
  - (* the dwell goes on after the first tick *)
    assert (Hn1 : INR (S (S n') - 1) = INR n' + 1).
    { replace (S (S n') - 1)%nat with (S n') by lia. apply S_INR. }
    assert (Hn2 : INR (S (S n')) = INR n' + 1 + 1) by (rewrite !S_INR; ring).
    rewrite Hn1 in Hgt. rewrite Hn2 in Hle.
    pose proof (pos_INR n') as Hpos.
    destruct Hstay as (X & Y & Z); [nra |].
    destruct (sweep_dwell_then_switch dtr (S n') rest w1 Hdt Hrest)
      as [Hlt Heq].
    + rewrite E. exact Hi1.
    + lia.
    + rewrite E. unfold with_seekDir. cbn [timer]. rewrite Z.
      replace (S n' - 1)%nat with n' by lia. rewrite S_INR. split; lra.
    + cbv zeta in Hlt, Heq. rewrite E in Hlt, Heq.
      unfold with_seekDir in Hlt, Heq. cbn [phase side] in Hlt, Heq.
      rewrite X, Y in Hlt, Heq. fold (sweep_after rest w1) in *.
      split.
      * intros Hlen. cbn [length] in Hlen. apply Hlt. lia.
      * intros _ Hlen. cbn [length] in Hlen.
        destruct Heq as (A & B & C & D); [lia |]. auto.
Qed.

End Sweep.

(** C3. On a searching tick, with the state machine taken after its
    (re)initialisation and the timer after its decrement by [dt]: a timer
    at most 0 in [hold] negates [side], enters [transit] and resets the
    timer to 0.9; a timer at most 0 in [transit] enters [hold] and resets
    the timer to 3.0; otherwise [phase] and [side] are kept with the
    decremented timer. Consequently, with no target and a constant positive
    [dt], a hold lasts [n] ticks with 3.0 <= n dt < 3.0 + dt and a transit
    [m] ticks with 0.9 <= m dt < 0.9 + dt, the tick that starts the state
    machine afresh counting in the first hold; [side] is kept during each
    dwell and at the transit-to-hold transition, and is negated at the
    hold-to-transit transition. *)
Theorem C3_sweep_transitions_and_period :
  (forall (d : Drone.t) (te : Terrain.t) (obs : list Obstacle.t) (dt0 : R)
          (w : World),
     let s0 := sweep_entry d (search_state w) in
     let s' := search_state (snd (tick (mkRequest d None te obs dt0) w)) in
     (timer s0 - dt0 <= 0 -> phase s0 = hold ->
      side s' = (- side s0)%Z /\ phase s' = transit /\ timer s' = 0.9) /\
     (timer s0 - dt0 <= 0 -> phase s0 = transit ->
      side s' = side s0 /\ phase s' = hold /\ timer s' = 3.0) /\
     (timer s0 - dt0 > 0 ->
      side s' = side s0 /\ phase s' = phase s0 /\
      timer s' = timer s0 - dt0)) /\
  (forall dt0 : R, dt0 > 0 ->
   exists n m : nat,
     3.0 <= INR n * dt0 < 3.0 + dt0 /\
     0.9 <= INR m * dt0 < 0.9 + dt0 /\
     forall (reqs : list Request) (w : World),
       Forall (searching_step dt0) reqs ->
       let s := search_state w in
       let s' := sweep_after reqs w in
       (inited s = true -> phase s = hold -> timer s = 3.0 ->
        ((length reqs < n)%nat ->
         inited s' = true /\ phase s' = hold /\ side s' = side s) /\
        (length reqs = n ->
         inited s' = true /\ phase s' = transit /\
         side s' = (- side s)%Z /\ timer s' = 0.9)) /\
       (inited s = true -> phase s = transit -> timer s = 0.9 ->
        ((length reqs < m)%nat ->
         inited s' = true /\ phase s' = transit /\ side s' = side s) /\
        (length reqs = m ->
         inited s' = true /\ phase s' = hold /\ side s' = side s /\
         timer s' = 3.0)) /\
       (inited s = false ->
        ((1 <= length reqs < n)%nat ->
         inited s' = true /\ phase s' = hold /\ side s' = 1%Z) /\
        (length reqs = n ->
         inited s' = true /\ phase s' = transit /\ side s' = (-1)%Z /\
         timer s' = 0.9))).
Proof.
  split.
  - intros d te obs dt0 w s0 s'. subst s0 s'.
    destruct (tick_searching d te obs dt0 w) as (r & E). rewrite E.
    unfold with_seekDir. cbn [side phase timer].
    pose proof (sweep_step_cases d dt0 (search_state w)) as Hc.
    cbv zeta in Hc. unfold SWEEP_HOLD, SWEEP_TRANSIT in Hc.
    destruct Hc as (_ & H1 & H2 & H3). auto.
  - intros dt0 Hdt.
    destruct (countdown_ticks 3.0 dt0) as (n & Hn & Hn1 & Hn2); [lra | lra |].
    destruct (countdown_ticks 0.9 dt0) as (m & Hm & Hm1 & Hm2); [lra | lra |].
    exists n, m.
    split.
    { rewrite minus_INR in Hn2 by exact Hn. cbn [INR] in Hn2. lra. }
    split.
    { rewrite minus_INR in Hm2 by exact Hm. cbn [INR] in Hm2. lra. }
    intros reqs w Hall s s'. subst s s'. split; [| split].
    + intros Hi Hp Ht.
      destruct (sweep_dwell_then_switch dt0 n reqs w Hdt Hall Hi Hn)
        as [Hlt Heq].
      { rewrite Ht. split; assumption. }
      rewrite Hp in Hlt, Heq. unfold SWEEP_TRANSIT in Heq.
      split; intros Hlen.
      * exact (Hlt Hlen).
      * destruct (Heq Hlen) as (A & B & C & D). auto.
    + intros Hi Hp Ht.
      destruct (sweep_dwell_then_switch dt0 m reqs w Hdt Hall Hi Hm)
        as [Hlt Heq].
      { rewrite Ht. split; assumption. }
      rewrite Hp in Hlt, Heq. unfold SWEEP_HOLD in Heq.
      split; intros Hlen.
      * exact (Hlt Hlen).
      * destruct (Heq Hlen) as (A & B & C & D). auto.
    + intros Hi.
      destruct (sweep_first_dwell dt0 n reqs w Hdt Hall Hi) as [Hlt Heq].
      { unfold SWEEP_HOLD. split; assumption. }
      unfold SWEEP_TRANSIT in Heq. split; intros Hlen.
      * exact (Hlt Hlen).
      * apply Heq; [| exact Hlen]. intros ->. cbn [length] in Hlen. lia.
Qed.

Lemma C3_sweep_transitions_and_period_witness :
  let d := Drone.mk (V3.mk 0 0 0) (V3.mk 0 0 0) 0 1 0 0 in
  let s' := search_state
              (snd (tick (mkRequest d None (Terrain.mk 0 0) [] 1)
                         initial_world)) in
  side s' = 1%Z /\ phase s' = hold /\ timer s' = 3.0 - 1.
Proof.
  intros d s'.
  refine (proj2 (proj2 (proj1 C3_sweep_transitions_and_period
                          d (Terrain.mk 0 0) [] 1 initial_world)) _).
  unfold sweep_entry, initial_world, initial_search, SWEEP_HOLD.
  cbn [search_state inited timer]. lra.
Defined.

(** ** Validation of the request body *)

Section Validation.

Lemma read_obstacles_json (obs : list Obstacle.t) :
  read_all read_obstacle (map json_obstacle obs) = Some obs.
Proof.
  induction obs as [| [[ox oz] rad] obs IH].
  - reflexivity.
  - cbn [map read_all]. rewrite IH. reflexivity.
Qed.

Lemma read_request_json (req : Request) :
  read_request (json_drone (drone req))
    (match lockedTarget req with Some t => json_target t | None => PNone end)
    (json_terrain (terrain req))
    (PList (map json_obstacle (obstacles req)))
    (PNum (dt req))
  = Some req.
Proof.
  destruct req as [[[px py pz] [vx vy vz] yw mt ta sp] tg [hd ah] obs dt0].
  unfold read_request. cbn [drone lockedTarget terrain obstacles dt].
  replace (read_drone _)
    with (Some (Drone.mk (V3.mk px py pz) (V3.mk vx vy vz) yw mt ta sp))
    by reflexivity.
  replace (read_terrain _) with (Some (Terrain.mk hd ah)) by reflexivity.
  cbn [opt_bind read_obstacles as_num]. rewrite read_obstacles_json.
  destruct tg as [[[tx tz] [ux uz]] |]; reflexivity.
Qed.

(** A well-formed request passes the validation and its body runs. *)
Lemma get_controls_json (req : Request) (w : World) :
  get_controls (json_request req) w = Some (tick req w).
Proof.
  unfold get_controls, json_request.
  cbn [truthy negb].
  replace (dict_get _ "drone" PNone) with (json_drone (drone req))
    by reflexivity.
  replace (dict_get _ "lockedTarget" PNone)
    with (match lockedTarget req with
          | Some t => json_target t
          | None => PNone
          end) by reflexivity.
  replace (dict_get _ "terrain" PNone) with (json_terrain (terrain req))
    by reflexivity.
  replace (dict_get _ "obstacles" (PList []))
    with (PList (map json_obstacle (obstacles req))) by reflexivity.
  replace (dict_get _ "dt" PNone) with (PNum (dt req)) by reflexivity.
  rewrite read_request_json. reflexivity.
Qed.

Lemma truthy_dict (kv : list (string * pyval)) :
  kv <> [] -> truthy (PDict kv) = true.
Proof. destruct kv; [contradiction | reflexivity]. Qed.

(** The outcome of the validation of lines 92-94 on an object. *)
Lemma get_controls_incomplete (kv : list (string * pyval)) (w : World) :
  kv <> [] ->
  truthy (dict_get kv "drone" PNone) = false \/
  truthy (dict_get kv "terrain" PNone) = false \/
  dict_get kv "dt" PNone = PNone ->
  get_controls (PDict kv) w = Some (Failure 400 "Incomplete data provided", w).
Proof.
  intros Hkv H. unfold get_controls. rewrite truthy_dict by exact Hkv.
  cbn [negb all forallb].
  destruct H as [H | [H | H]]; rewrite H; cbn [is_None negb andb];
    rewrite ?andb_false_r; reflexivity.
Qed.

End Validation.

(** C6, as the code has it. A body for which [request.json] is [None] or
    otherwise false ([null], an empty object, array or string, 0, [false])
    gets status 400 with "No data received"; a body that is a non-empty
    object and lacks [drone], [terrain] or [dt] gets status 400 with
    "Incomplete data provided"; in both cases the state machine, the output
    filter and the heap are left as they were. *)
Theorem C6_validation_failures_keep_state :
  (forall (data : pyval) (w : World),
     truthy data = false ->
     get_controls data w = Some (Failure 400 "No data received", w)) /\
  (forall (kv : list (string * pyval)) (w : World),
     kv <> [] ->
     assoc "drone" kv = None \/ assoc "terrain" kv = None \/
     assoc "dt" kv = None ->
     get_controls (PDict kv) w
     = Some (Failure 400 "Incomplete data provided", w)).
Proof.
  split.
  - intros data w H. unfold get_controls. now rewrite H.
  - intros kv w Hkv H. apply get_controls_incomplete; [exact Hkv |].
    unfold dict_get.
    destruct H as [H | [H | H]]; rewrite H; auto.
Qed.

Lemma C6_validation_failures_keep_state_witness :
  get_controls PNone initial_world
  = Some (Failure 400 "No data received", initial_world) /\
  get_controls (PDict [("drone", PDict [("yaw", PNum 0)]);
                       ("terrain", PDict [("height_at_drone", PNum 0)])])
               initial_world
  = Some (Failure 400 "Incomplete data provided", initial_world).
Proof.
  split.
  - apply (proj1 C6_validation_failures_keep_state). reflexivity.
  - apply (proj2 C6_validation_failures_keep_state).
    + discriminate.
    + right. right. reflexivity.
Defined.

(** C6, as the specification states it, fails on two bodies. For a body
    that is empty or unparseable [request.json] raises, and the answer is
    status 500 with "Internal Server Error", not 400 with "No data
    received". The body [{}] lacks [drone], [terrain] and [dt], and its
    answer is 400 with "No data received", not "Incomplete data
    provided". *)
Lemma C6_unparseable_body_and_empty_object :
  get_controls_request JsonRaises initial_world
  = Some (Failure 500 "Internal Server Error", initial_world) /\
  (assoc "drone" [] = None /\ assoc "terrain" [] = None /\
   assoc "dt" [] = None) /\
  get_controls_request (JsonValue (PDict [])) initial_world
  = Some (Failure 400 "No data received", initial_world) /\
  Failure 500 "Internal Server Error" <> Failure 400 "No data received" /\
  Failure 400 "No data received" <> Failure 400 "Incomplete data provided".
Proof.
  split; [reflexivity |]. split; [repeat split |].
  split; [reflexivity |]. split; discriminate.
Qed.

(** C10. A body in which [drone] or [terrain] is present with a false value
    (an empty object, [null], [0], an empty string or list, [false]) gets
    status 400 with "Incomplete data provided", as if the field were
    missing, and the state is left as it was; [dt] is only compared with
    [None], so a well-formed request with [dt = 0] or [dt < 0] passes the
    validation and its body runs, to a success when [maxTurn] is not 0. *)
Theorem C10_falsy_fields_rejected_zero_dt_accepted :
  (forall (kv : list (string * pyval)) (v : pyval) (w : World),
     kv <> [] ->
     truthy v = false ->
     assoc "drone" kv = Some v \/ assoc "terrain" kv = Some v ->
     get_controls (PDict kv) w
     = Some (Failure 400 "Incomplete data provided", w)) /\
  truthy (PDict []) = false /\
  (forall (req : Request) (w : World),
     dt req <= 0 ->
     get_controls (json_request req) w = Some (tick req w) /\
     (Drone.maxTurn (drone req) <> 0 ->
      exists c s sd st, fst (tick req w) = Success c s sd st)).
Proof.
  split; [| split].
  - intros kv v w Hkv Hv H. apply get_controls_incomplete; [exact Hkv |].
    unfold dict_get. destruct H as [H | H]; rewrite H; auto.
  - reflexivity.
  - intros req w _. split.
    + apply get_controls_json.
    + intros Hm. destruct (tick_ok req w Hm) as (s' & sd & E & _).
      cbv zeta in E. rewrite E. eauto.
Qed.

Lemma C10_falsy_fields_rejected_zero_dt_accepted_witness :
  let d := Drone.mk (V3.mk 0 0 0) (V3.mk 0 0 0) 0 1 0 0 in
  let req := mkRequest d None (Terrain.mk 0 0) [] 0 in
  get_controls (PDict [("drone", PDict []); ("terrain", PDict []);
                       ("dt", PNum 1)]) initial_world
  = Some (Failure 400 "Incomplete data provided", initial_world) /\
  get_controls (json_request req) initial_world
  = Some (tick req initial_world) /\
  exists c s sd st, fst (tick req initial_world) = Success c s sd st.
Proof.
  intros d req. split; [| split].
  - apply (proj1 C10_falsy_fields_rejected_zero_dt_accepted
             _ (PDict []) initial_world).
    + discriminate.
    + reflexivity.
    + left. reflexivity.
  - apply (proj2 (proj2 C10_falsy_fields_rejected_zero_dt_accepted)
             req initial_world).
    unfold req. cbn [dt]. lra.
  - apply (proj2 (proj2 C10_falsy_fields_rejected_zero_dt_accepted)
             req initial_world).
    + unfold req. cbn [dt]. lra.
    + unfold req, d. cbn [drone Drone.maxTurn]. lra.
Defined.

(** ** Obstacle repulsion *)

Lemma post_avoidance_eq (d : Drone.t) (obs : list Obstacle.t) (pre : V2.t) :
  post_avoidance d obs pre = avoid_value (Drone.position d) obs pre.
Proof.
  unfold post_avoidance.
  rewrite avoidance_run by (cbn [heap length]; lia).
  cbn [snd heap]. reflexivity.
Qed.

Lemma normalize_value_scale (v : V2.t) :
  exists k : R, 0 < k /\ normalize_value v = V2.mk (k * V2.x v) (k * V2.z v).
Proof.
  unfold normalize_value. cbv zeta.
  destruct (Rgt_dec (sqrt (V2.x v ^ 2 + V2.z v ^ 2)) 1e-6) as [Hl | Hl].
  - exists (/ sqrt (V2.x v ^ 2 + V2.z v ^ 2)). split.
    + apply Rinv_0_lt_compat. lra.
    + apply V2_eq; cbn [V2.x V2.z]; unfold Rdiv; ring.
  - exists 1. split; [lra |]. apply V2_eq; cbn [V2.x V2.z]; ring.
Qed.

(** One obstacle, on the bearing [e] from the look-ahead point of a drone
    away from the arena boundary that steers along the unit vector [pre]. *)
Section Repulsion.

Variable d : Drone.t.
Variables pre e : V2.t.
Hypothesis pre_unit : norm_sq pre = 1.
Hypothesis e_unit : norm_sq e = 1.
Hypothesis inside : clear_of_boundary (Drone.position d).

(** The push of the obstacle, within the activation radius. *)
Lemma steer_avoid_single (dist rad : R) :
  1e-6 < dist < rad + 1.8 ->
  steer_avoid (Drone.position d) pre
              [obstacle_at (Drone.position d) pre e dist rad]
  = V3.mk (V2.x e * (1 - dist / (rad + 1.8))) 0
          (V2.z e * (1 - dist / (rad + 1.8))).
Proof.
  intros [Hd1 Hd2].
  pose proof e_unit as He. destruct inside as [Hbx Hbz]. unfold norm_sq in He.
  unfold steer_avoid, obstacle_push, obstacle_at, look_ahead, HALF.
  cbn [fold_left V2.x V2.z V3.x V3.y V3.z Obstacle.pos Obstacle.radius].
  set (ax := V3.x (Drone.position d) + V2.x pre * 0.1).
  set (az := V3.z (Drone.position d) + V2.z pre * 0.1).
  replace ((ax - (ax - dist * V2.x e)) ^ 2 + (az - (az - dist * V2.z e)) ^ 2)
    with (dist * dist).
  2:{ replace (dist * dist) with (dist * dist * (V2.x e ^ 2 + V2.z e ^ 2))
        by (rewrite He; ring). ring. }
  rewrite sqrt_square by lra.
  destruct (Rlt_dec (dist * dist) ((rad + 1.8) * (rad + 1.8))) as [_ | N];
    [| exfalso; nra].
  rdec. cbn [V3.x V3.y V3.z]. f_equal; field; lra.
Qed.

(** Cosine and sine of the angle from [pre] to [e]. *)
Lemma dot_cross_unit : dot pre e ^ 2 + cross pre e ^ 2 = 1.
Proof.
  pose proof pre_unit as Hu. pose proof e_unit as He.
  unfold norm_sq, dot, cross in *.
  replace ((V2.x pre * V2.x e + V2.z pre * V2.z e) ^ 2
           + (V2.x pre * V2.z e - V2.z pre * V2.x e) ^ 2)
    with ((V2.x pre ^ 2 + V2.z pre ^ 2) * (V2.x e ^ 2 + V2.z e ^ 2)) by ring.
  rewrite Hu, He. ring.
Qed.

(** The direction after avoidance is a positive multiple of the direction
    before plus the push. *)
Lemma post_avoidance_single (dist rad : R) :
  1e-6 < dist < rad + 1.8 ->
  let k := 1 - dist / (rad + 1.8) in
  let post :=
    post_avoidance d [obstacle_at (Drone.position d) pre e dist rad] pre in
  0 < k < 1 /\
  exists l : R, 0 < l /\
    dot pre post = l * (1 + k * dot pre e) /\
    cross pre post = l * (k * cross pre e) /\
    0 < 1 + k * dot pre e.
Proof.
  intros Hd k post.
  assert (Hk : 0 < k < 1).
  { unfold k. assert (Hr : 0 < rad + 1.8) by lra.
    assert (E : dist = dist / (rad + 1.8) * (rad + 1.8)) by (field; lra).
    set (q := dist / (rad + 1.8)) in *.
    assert (0 < q) by (apply Rdiv_lt_0_compat; lra).
    split; [| lra].
    destruct (Rlt_dec q 1) as [Hq | Hq]; [lra | exfalso; nra]. }
  split; [exact Hk |].
  unfold post. rewrite post_avoidance_eq. unfold avoid_value.
  rewrite steer_avoid_single by assumption. fold k. cbn [V3.x V3.z].
  destruct (normalize_value_scale
              (V2.mk (V2.x pre + V2.x e * k) (V2.z pre + V2.z e * k)))
    as (l & Hl & E).
  rewrite E. cbn [V2.x V2.z]. exists l. split; [exact Hl |].
  pose proof dot_cross_unit as Hdc. pose proof pre_unit as Hu.
  unfold norm_sq in Hu. unfold dot, cross in *. cbn [V2.x V2.z].
  split; [| split].
  - replace (V2.x pre * (l * (V2.x pre + V2.x e * k))
             + V2.z pre * (l * (V2.z pre + V2.z e * k)))
      with (l * ((V2.x pre ^ 2 + V2.z pre ^ 2)
                 + k * (V2.x pre * V2.x e + V2.z pre * V2.z e))) by ring.
    now rewrite Hu.
  - ring.
  - set (c := V2.x pre * V2.x e + V2.z pre * V2.z e) in *.
    set (s := V2.x pre * V2.z e - V2.z pre * V2.x e) in *.
    assert (-1 <= c) by nra. nra.
Qed.

End Repulsion.

(** C7, as the code has it. For one obstacle within the activation radius
    (1e-6 < distance < radius + 1.8), a unit direction before avoidance and
    a drone away from the arena boundary, the direction after avoidance
    stays within a quarter turn of the direction before. When the obstacle
    centre is on the line of that direction through the look-ahead point
    (directly ahead or behind) the deviation is zero. When it is off that
    line the deviation is nonzero, and on a fixed bearing its magnitude
    (the absolute value of its tangent) grows strictly as the distance
    from the obstacle centre to the look-ahead point decreases. *)
Theorem C7_obstacle_deviation :
  forall (d : Drone.t) (pre e : V2.t) (rad dist1 dist2 : R),
    norm_sq pre = 1 -> norm_sq e = 1 ->
    clear_of_boundary (Drone.position d) ->
    1e-6 < dist1 -> dist1 < dist2 -> dist2 < rad + 1.8 ->
    let pos := Drone.position d in
    let post1 := post_avoidance d [obstacle_at pos pre e dist1 rad] pre in
    let post2 := post_avoidance d [obstacle_at pos pre e dist2 rad] pre in
    0 < dot pre post1 /\ 0 < dot pre post2 /\
    (cross pre e = 0 -> cross pre post1 = 0 /\ cross pre post2 = 0) /\
    (cross pre e <> 0 ->
     cross pre post1 <> 0 /\ cross pre post2 <> 0 /\
     Rabs (deviation_tan pre post2) < Rabs (deviation_tan pre post1)).
Proof.
  intros d pre e rad dist1 dist2 Hu He Hb H1 H12 H2 pos post1 post2.
  destruct (post_avoidance_single d pre e Hu He Hb dist1 rad)
    as (Hk1 & l1 & Hl1 & D1 & C1 & P1); [lra |].
  destruct (post_avoidance_single d pre e Hu He Hb dist2 rad)
    as (Hk2 & l2 & Hl2 & D2 & C2 & P2); [lra |].
  fold pos post1 in D1, C1. fold pos post2 in D2, C2.
  set (k1 := 1 - dist1 / (rad + 1.8)) in *.
  set (k2 := 1 - dist2 / (rad + 1.8)) in *.
  set (c := dot pre e) in *. set (s := cross pre e) in *.
  assert (Hk : k2 < k1).
  { unfold k1, k2. assert (Hr : 0 < / (rad + 1.8))
      by (apply Rinv_0_lt_compat; lra).
    unfold Rdiv. nra. }
  split; [rewrite D1; now apply Rmult_lt_0_compat |].
  split; [rewrite D2; now apply Rmult_lt_0_compat |].
  split.
  - intros Hs. rewrite C1, C2, Hs. split; ring.
  - intros Hs.
    assert (Hc1 : cross pre post1 <> 0).
    { rewrite C1. apply Rmult_integral_contrapositive_currified; [lra |].
      apply Rmult_integral_contrapositive_currified; [lra | exact Hs]. }
    assert (Hc2 : cross pre post2 <> 0).
    { rewrite C2. apply Rmult_integral_contrapositive_currified; [lra |].
      apply Rmult_integral_contrapositive_currified; [lra | exact Hs]. }
    split; [exact Hc1 |]. split; [exact Hc2 |].
    unfold deviation_tan. rewrite D1, C1, D2, C2.
    replace (l2 * (k2 * s) / (l2 * (1 + k2 * c)))
      with (k2 / (1 + k2 * c) * s) by (field; lra).
    replace (l1 * (k1 * s) / (l1 * (1 + k1 * c)))
      with (k1 / (1 + k1 * c) * s) by (field; lra).
    rewrite !Rabs_mult.
    assert (Hq2 : 0 < k2 / (1 + k2 * c)) by (apply Rdiv_lt_0_compat; lra).
    assert (Hq1 : 0 < k1 / (1 + k1 * c)) by (apply Rdiv_lt_0_compat; lra).
    rewrite (Rabs_pos_eq (k2 / _)) by lra.
    rewrite (Rabs_pos_eq (k1 / _)) by lra.
    apply Rmult_lt_compat_r; [now apply Rabs_pos_lt |].
    assert (E : k1 / (1 + k1 * c) - k2 / (1 + k2 * c)
                = (k1 - k2) / ((1 + k1 * c) * (1 + k2 * c)))
      by (field; lra).
    assert (0 < (k1 - k2) / ((1 + k1 * c) * (1 + k2 * c))).
    { apply Rdiv_lt_0_compat; [lra |]. now apply Rmult_lt_0_compat. }
    lra.
Qed.

Lemma C7_obstacle_deviation_witness :
  let d := Drone.mk (V3.mk 0 0 0) (V3.mk 0 0 0) 0 1 0 0 in
  let pre := V2.mk 1 0 in
  let e := V2.mk 0 1 in
  let post1 := post_avoidance d [obstacle_at (Drone.position d) pre e 1 0.2]
                              pre in
  let post2 := post_avoidance d [obstacle_at (Drone.position d) pre e 1.5 0.2]
                              pre in
  cross pre post1 <> 0 /\ cross pre post2 <> 0 /\
  Rabs (deviation_tan pre post2) < Rabs (deviation_tan pre post1).
Proof.
  intros d pre e post1 post2.
  assert (Hu : norm_sq pre = 1) by (unfold norm_sq, pre; cbn [V2.x V2.z]; lra).
  assert (He : norm_sq e = 1) by (unfold norm_sq, e; cbn [V2.x V2.z]; lra).
  assert (Hb : clear_of_boundary (Drone.position d)).
  { unfold clear_of_boundary, d. cbn [Drone.position V3.x V3.z].
    rewrite Rabs_R0. lra. }
  refine (proj2 (proj2 (proj2
            (C7_obstacle_deviation d pre e 0.2 1 1.5 Hu He Hb _ _ _))) _).
  - lra.
  - lra.
  - lra.
  - unfold cross, pre, e. cbn [V2.x V2.z]. lra.
Defined.

(** C7, as the specification states it, fails: the drone at the origin
    heads along (1, 0), which is also the direction before avoidance; an
    obstacle of radius 0.2 lies directly ahead at (1, 0), at distance 0.9
    from the look-ahead point and so within the activation radius 2; the
    direction after avoidance is again (1, 0). *)
Lemma C7_head_on_obstacle_no_deviation :
  let d := Drone.mk (V3.mk 0 0 0) (V3.mk 0 0 0) 0 1 0 0 in
  let pre := V2.mk 1 0 in
  let o := Obstacle.mk (V2.mk 1 0) 0.2 in
  pre = forward d /\
  Obstacle.pos o = ahead_of (Drone.position d) (forward d) 1 /\
  distance (look_ahead (Drone.position d) pre) (Obstacle.pos o)
    < Obstacle.radius o + 1.8 /\
  post_avoidance d [o] pre = pre.
Proof.
  intros d pre o.
  assert (Hf : forward d = pre).
  { unfold forward, d, pre. cbn [Drone.yaw]. now rewrite cos_0, sin_0. }
  split; [now rewrite Hf |]. split; [| split].
  - rewrite Hf. unfold ahead_of, o, d, pre.
    cbn [Obstacle.pos Drone.position V2.x V2.z V3.x V3.z].
    apply V2_eq; cbn [V2.x V2.z]; lra.
  - unfold distance, look_ahead, o, d, pre.
    cbn [Obstacle.pos Obstacle.radius Drone.position V2.x V2.z V3.x V3.z].
    match goal with |- context [sqrt ?a] =>
      rewrite (sqrt_of_square a 0.9) by (try field; lra) end.
    lra.
  - rewrite post_avoidance_eq.
    unfold avoid_value, steer_avoid, obstacle_push, HALF, o, d, pre.
    cbn [Drone.position fold_left V2.x V2.z V3.x V3.y V3.z Obstacle.pos
         Obstacle.radius].
    rewrite Rabs_R0.
    match goal with |- context [sqrt ?a] =>
      rewrite (sqrt_of_square a 0.9) by (try field; lra) end.
    replace ((0 + 1 * 0.1 - 1) ^ 2 + (0 + 0 * 0.1 - 0) ^ 2) with 0.81
      by lra.
    rdec. cbn [V2.x V2.z V3.x V3.z].
    unfold normalize_value. cbn [V2.x V2.z].
    match goal with |- context [sqrt ?a] =>
      rewrite (sqrt_of_square a 0.45) by (try field; lra) end.
    rdec. apply V2_eq; cbn [V2.x V2.z]; lra.
Qed.

(** * Further properties of the code *)

(** ** [clamp], [wrap_angle] and [lerp_angle] *)

Section Scalars.

Lemma clamp_inside (v lo hi : R) : lo <= v <= hi -> clamp v lo hi = v.
Proof.
  intros [H1 H2]. unfold clamp.
  rewrite (Rmin_left v hi) by exact H2. now apply Rmax_right.
Qed.

Lemma clamp_inverted (v lo hi : R) : hi < lo -> clamp v lo hi = lo.
Proof.
  intros H. unfold clamp. apply Rmax_left.
  pose proof (Rmin_r v hi). lra.
Qed.

(** On the unit circle [atan2] inverts [cos] and [sin]. *)
Lemma atan2_unit_circle (y x : R) :
  x ^ 2 + y ^ 2 = 1 -> cos (atan2 y x) = x /\ sin (atan2 y x) = y.
Proof.
  intros Hu. unfold atan2.
  destruct (Rlt_dec 0 x) as [Hx | Hx].
  - rewrite cos_atan, sin_atan.
    assert (Hs : sqrt (1 + (y / x)²) = / x).
    { apply sqrt_of_square.
      - left. now apply Rinv_0_lt_compat.
      - unfold Rsqr.
        replace (1 + y / x * (y / x)) with ((x ^ 2 + y ^ 2) / (x * x))
          by (field; lra).
        rewrite Hu. field. lra. }
    rewrite Hs. split; field; lra.
  - destruct (Rlt_dec x 0) as [Hx' | Hx'].
    + assert (Hs : sqrt (1 + (y / x)²) = / - x).
      { apply sqrt_of_square.
        - left. apply Rinv_0_lt_compat. lra.
        - unfold Rsqr.
          replace (1 + y / x * (y / x)) with ((x ^ 2 + y ^ 2) / (x * x))
            by (field; lra).
          rewrite Hu. field. lra. }
      destruct (Rle_dec 0 y) as [Hy | Hy].
      * rewrite neg_cos, neg_sin.
        rewrite cos_atan, sin_atan, Hs. split; field; lra.
      * unfold Rminus.
        replace (atan (y / x) + - PI) with (- (PI - atan (y / x))) by ring.
        rewrite cos_neg, sin_neg, Rtrigo_facts.cos_pi_minus, sin_PI_x.
        rewrite cos_atan, sin_atan, Hs. split; field; lra.
    + assert (Hz : x = 0) by lra. subst x.
      assert (Hy2 : y * y = 1) by lra.
      destruct (Rlt_dec 0 y) as [Hy | Hy].
      * rewrite cos_PI2, sin_PI2. split; [reflexivity | nra].
      * destruct (Rlt_dec y 0) as [Hy' | Hy'].
        -- rewrite cos_neg, sin_neg, cos_PI2, sin_PI2.
           split; [reflexivity | nra].
        -- exfalso. nra.
Qed.

Lemma wrap_angle_cos_sin (a : R) :
  cos (wrap_angle a) = cos a /\ sin (wrap_angle a) = sin a.
Proof.
  apply atan2_unit_circle.
  pose proof (sin2_cos2 a) as H. unfold Rsqr in H. lra.
Qed.

Lemma cos_one_whole_turns (t : R) :
  cos t = 1 -> exists k : Z, t = 2 * PI * IZR k.
Proof.
  intros Hc.
  assert (Hs : sin (t / 2) = 0).
  { pose proof (cos_2a_sin (t / 2)) as H.
    replace (2 * (t / 2)) with t in H by field.
    rewrite Hc in H. nra. }
  destruct (sin_eq_0_0 _ Hs) as [k Hk]. exists k. lra.
Qed.

Lemma wrap_angle_same_angle (a : R) : same_angle (wrap_angle a) a.
Proof.
  destruct (wrap_angle_cos_sin a) as [Hc Hs].
  destruct (cos_one_whole_turns (wrap_angle a - a)) as [k Hk].
  - rewrite cos_minus, Hc, Hs.
    pose proof (sin2_cos2 a) as H. unfold Rsqr in H. lra.
  - exists k. lra.
Qed.

End Scalars.

(** X1. With [min_val <= max_val], [clamp] returns a value between the two
    bounds and returns [value] itself when it already lies between them;
    with the bounds the wrong way round ([max_val < min_val]) it returns
    [min_val] whatever the value. *)
Theorem X1_clamp_range_fixpoint_inverted :
  forall v lo hi : R,
    (lo <= hi -> lo <= clamp v lo hi <= hi) /\
    (lo <= v <= hi -> clamp v lo hi = v) /\
    (hi < lo -> clamp v lo hi = lo).
Proof.
  intros v lo hi. split; [| split].
  - apply clamp_bounds.
  - apply clamp_inside.
  - apply clamp_inverted.
Qed.

Lemma X1_clamp_range_fixpoint_inverted_witness :
  -1 <= clamp 5 (-1) 1 <= 1 /\ clamp 0.5 (-1) 1 = 0.5 /\ clamp 0 1 (-1) = 1.
Proof.
  split; [| split].
  - apply (proj1 (X1_clamp_range_fixpoint_inverted 5 (-1) 1)). lra.
  - apply (proj1 (proj2 (X1_clamp_range_fixpoint_inverted 0.5 (-1) 1))). lra.
  - apply (proj2 (proj2 (X1_clamp_range_fixpoint_inverted 0 1 (-1)))). lra.
Defined.

(** X2. [wrap_angle a] is the same angle as [a]: it has the cosine and the
    sine of [a] and differs from [a] by a whole number of turns; wrapping
    twice is wrapping once. *)
Theorem X2_wrap_angle_same_angle :
  forall a : R,
    cos (wrap_angle a) = cos a /\ sin (wrap_angle a) = sin a /\
    same_angle (wrap_angle a) a /\
    wrap_angle (wrap_angle a) = wrap_angle a.
Proof.
  intros a. destruct (wrap_angle_cos_sin a) as [Hc Hs].
  split; [exact Hc |]. split; [exact Hs |].
  split; [apply wrap_angle_same_angle |].
  apply wrap_angle_id, wrap_angle_range.
Qed.



(** ** [steer_avoid] *)

Section SteerAvoid.

Lemma V3_eq (a b : V3.t) :
  V3.x a = V3.x b -> V3.y a = V3.y b -> V3.z a = V3.z b -> a = b.
Proof. destruct a, b. cbn. now intros -> -> ->. Qed.

(** An obstacle adds its own term to the push, whatever the push so far. *)
Lemma obstacle_push_adds (a p : V3.t) (o : Obstacle.t) :
  obstacle_push a p o
  = V3.mk (V3.x p + V3.x (obstacle_push a (V3.mk 0 0 0) o))
          (V3.y p)
          (V3.z p + V3.z (obstacle_push a (V3.mk 0 0 0) o)).
Proof.
  unfold obstacle_push. cbv zeta.
  destruct (Rlt_dec _ _); [destruct (Rgt_dec _ _) |];
    cbn [V3.x V3.y V3.z]; apply V3_eq; cbn [V3.x V3.y V3.z]; ring.
Qed.

Lemma obstacle_push_swap (a p : V3.t) (o1 o2 : Obstacle.t) :
  obstacle_push a (obstacle_push a p o1) o2
  = obstacle_push a (obstacle_push a p o2) o1.
Proof.
  rewrite (obstacle_push_adds a (obstacle_push a p o1) o2).
  rewrite (obstacle_push_adds a (obstacle_push a p o2) o1).
  rewrite (obstacle_push_adds a p o1), (obstacle_push_adds a p o2).
  cbn [V3.x V3.y V3.z]. apply V3_eq; cbn [V3.x V3.y V3.z]; ring.
Qed.

Lemma fold_obstacle_push_perm (a : V3.t) (l l' : list Obstacle.t) :
  Permutation l l' ->
  forall p : V3.t,
    fold_left (obstacle_push a) l p = fold_left (obstacle_push a) l' p.
Proof.
  induction 1 as [| o l l' _ IH | o1 o2 l | l l' l'' _ IH1 _ IH2]; intros p.
  - reflexivity.
  - cbn [fold_left]. apply IH.
  - cbn [fold_left]. now rewrite obstacle_push_swap.
  - now rewrite IH1.
Qed.

Lemma fold_obstacle_push_adds (a : V3.t) (l : list Obstacle.t) :
  forall p : V3.t,
    fold_left (obstacle_push a) l p
    = V3.mk (V3.x p + V3.x (fold_left (obstacle_push a) l (V3.mk 0 0 0)))
            (V3.y p)
            (V3.z p + V3.z (fold_left (obstacle_push a) l (V3.mk 0 0 0))).
Proof.
  induction l as [| o l IH]; intros p.
  - cbn [fold_left V3.x V3.z]. apply V3_eq; cbn [V3.x V3.y V3.z]; ring.
  - cbn [fold_left]. rewrite (IH (obstacle_push a p o)).
    rewrite (IH (obstacle_push a (V3.mk 0 0 0) o)).
    rewrite (obstacle_push_adds a p o). cbn [V3.x V3.y V3.z].
    apply V3_eq; cbn [V3.x V3.y V3.z]; ring.
Qed.

Lemma obstacle_push_passed_over (pos : V3.t) (vel : V2.t) (p : V3.t)
  (o : Obstacle.t) :
  passed_over pos vel o ->
  obstacle_push (V3.mk (V3.x pos + V2.x vel * 0.1) (V3.y pos)
                       (V3.z pos + V2.z vel * 0.1)) p o = p.
Proof.
  unfold passed_over, distance, look_ahead, obstacle_push.
  cbn [V2.x V2.z V3.x V3.y V3.z].
  set (d2 := (V3.x pos + V2.x vel * 0.1 - V2.x (Obstacle.pos o)) ^ 2
             + (V3.z pos + V2.z vel * 0.1 - V2.z (Obstacle.pos o)) ^ 2).
  set (r := Obstacle.radius o + 1.8).
  intros [Hfar | Hnear].
  - destruct (Rlt_dec d2 (r * r)) as [Hin | _]; [exfalso | reflexivity].
    assert (Hd2 : 0 <= d2)
      by (unfold d2; apply Rplus_le_le_0_compat; apply pow2_ge_0).
    pose proof (sqrt_sqrt d2 Hd2) as Hs.
    pose proof (sqrt_pos d2) as Hp.
    pose proof (Rabs_pos r) as Hr.
    assert (Hrr : Rabs r * Rabs r = r * r).
    { unfold Rabs. destruct (Rcase_abs r); ring. }
    nra.
  - destruct (Rlt_dec d2 (r * r)) as [_ | _]; [| reflexivity].
    destruct (Rgt_dec (sqrt d2) 1e-6) as [Hg | _]; [lra | reflexivity].
Qed.

(** The boundary push on one axis, for the coordinate [c]. *)
Lemma boundary_axis (c : R) :
  let p := 0 - (if Rlt_dec (900 * 0.48 - Rabs c) 28
                then copysign1 c * (1 - (900 * 0.48 - Rabs c) / 28)
                else 0) * 2.0 in
  (Rabs c <= 404 -> p = 0) /\
  (404 < Rabs c -> p * c < 0 /\ Rabs p = (Rabs c - 404) / 14).
Proof.
  intros p. subst p. unfold copysign1.
  assert (Hc : (0 <= c /\ Rabs c = c) \/ (c < 0 /\ Rabs c = - c)).
  { unfold Rabs. destruct (Rcase_abs c); lra. }
  destruct Hc as [[Hs Ha] | [Hs Ha]]; rewrite Ha;
    destruct (Rlt_dec _ 28) as [Hm | Hm];
    destruct (Rle_dec 0 c) as [Hp | Hp]; try lra;
    (split; [intros H; lra |]); intros H; try lra.
  - split; [nra |]. rewrite Rabs_left; lra.
  - split; [nra |]. rewrite Rabs_pos_eq; lra.
Qed.

End SteerAvoid.

(** X4. Without obstacles the push of [steer_avoid] is the boundary push:
    its vertical component is 0; on each horizontal axis it is 0 while the
    drone is at most 404 from the centre (432 less the margin 28), and
    beyond that it points back to the centre with magnitude
    (|coordinate| - 404) / 14. *)
Theorem X4_boundary_push :
  forall (pos : V3.t) (vel : V2.t),
    let p := steer_avoid pos vel [] in
    V3.y p = 0 /\
    (Rabs (V3.x pos) <= 404 -> V3.x p = 0) /\
    (404 < Rabs (V3.x pos) ->
     V3.x p * V3.x pos < 0 /\ Rabs (V3.x p) = (Rabs (V3.x pos) - 404) / 14) /\
    (Rabs (V3.z pos) <= 404 -> V3.z p = 0) /\
    (404 < Rabs (V3.z pos) ->
     V3.z p * V3.z pos < 0 /\ Rabs (V3.z p) = (Rabs (V3.z pos) - 404) / 14).
Proof.
  intros pos vel p. subst p. unfold steer_avoid, HALF.
  cbn [fold_left V3.x V3.y V3.z].
  destruct (boundary_axis (V3.x pos)) as [Hx0 Hx1].
  destruct (boundary_axis (V3.z pos)) as [Hz0 Hz1].
  auto.
Qed.

Lemma X4_boundary_push_witness :
  let p := steer_avoid (V3.mk 431 0 0) (V2.mk 1 0) [] in
  (V3.x p * 431 < 0 /\ Rabs (V3.x p) = (Rabs 431 - 404) / 14) /\ V3.z p = 0.
Proof.
  intros p. split.
  - apply (proj1 (proj2 (proj2
       (X4_boundary_push (V3.mk 431 0 0) (V2.mk 1 0))))).
    cbn [V3.x]. rewrite Rabs_pos_eq; lra.
  - apply (proj1 (proj2 (proj2 (proj2
       (X4_boundary_push (V3.mk 431 0 0) (V2.mk 1 0)))))).
    cbn [V3.z]. rewrite Rabs_R0. lra.
Defined.

(** X5. Obstacles that are out of reach of the look-ahead point (at least
    |radius + 1.8| away) or centred on it (within 1e-6) add nothing: the
    push is that of no obstacle at all. *)
Theorem X5_passed_over_obstacles_add_nothing :
  forall (pos : V3.t) (vel : V2.t) (obs : list Obstacle.t),
    Forall (passed_over pos vel) obs ->
    steer_avoid pos vel obs = steer_avoid pos vel [].
Proof.
  intros pos vel obs Hall. unfold steer_avoid. cbv zeta.
  assert (E : forall p,
            fold_left
              (obstacle_push (V3.mk (V3.x pos + V2.x vel * 0.1) (V3.y pos)
                                    (V3.z pos + V2.z vel * 0.1))) obs p = p).
  { induction Hall as [| o obs Ho _ IH]; intros p; [reflexivity |].
    cbn [fold_left]. rewrite obstacle_push_passed_over by exact Ho.
    apply IH. }
  rewrite E. reflexivity.
Qed.

Lemma X5_passed_over_obstacles_add_nothing_witness :
  steer_avoid (V3.mk 0 0 0) (V2.mk 1 0) [Obstacle.mk (V2.mk 10.1 0) 1]
  = steer_avoid (V3.mk 0 0 0) (V2.mk 1 0) [].
Proof.
  apply X5_passed_over_obstacles_add_nothing.
  constructor; [| constructor]. left.
  unfold distance, look_ahead.
  cbn [Obstacle.radius Obstacle.pos V2.x V2.z V3.x V3.z].
  rewrite (sqrt_of_square _ 10) by lra.
  rewrite Rabs_pos_eq; lra.
Defined.

(** X6. Over the reals the push does not depend on the order of the
    obstacles, and the obstacles of two lists push independently: the push
    of the two lists together is the sum of their pushes less the boundary
    push, which each of them counts. *)
Theorem X6_push_order_and_sum :
  forall (pos : V3.t) (vel : V2.t) (obs1 obs2 : list Obstacle.t),
    (Permutation obs1 obs2 ->
     steer_avoid pos vel obs1 = steer_avoid pos vel obs2) /\
    V3.x (steer_avoid pos vel (obs1 ++ obs2))
    = V3.x (steer_avoid pos vel obs1) + V3.x (steer_avoid pos vel obs2)
      - V3.x (steer_avoid pos vel []) /\
    V3.z (steer_avoid pos vel (obs1 ++ obs2))
    = V3.z (steer_avoid pos vel obs1) + V3.z (steer_avoid pos vel obs2)
      - V3.z (steer_avoid pos vel []).
Proof.
  intros pos vel obs1 obs2. unfold steer_avoid. cbv zeta. split.
  - intros Hp. now rewrite (fold_obstacle_push_perm _ _ _ Hp).
  - rewrite fold_left_app.
    rewrite (fold_obstacle_push_adds _ obs2 (fold_left _ obs1 _)).
    cbn [fold_left V3.x V3.z]. split; ring.
Qed.

Lemma X6_push_order_and_sum_witness :
  let o1 := Obstacle.mk (V2.mk 1 0) 1 in
  let o2 := Obstacle.mk (V2.mk 0 1) 1 in
  steer_avoid (V3.mk 0 0 0) (V2.mk 1 0) [o1; o2]
  = steer_avoid (V3.mk 0 0 0) (V2.mk 1 0) [o2; o1].
Proof.
  intros o1 o2.
  apply (proj1 (X6_push_order_and_sum (V3.mk 0 0 0) (V2.mk 1 0)
                  [o1; o2] [o2; o1])).
  apply perm_swap.
Defined.

(** X7. The push is horizontal and blind to height: its vertical component
    is 0 whatever the obstacles, and it does not depend on the height of
    the drone. *)
Theorem X7_push_is_horizontal :
  forall (x y y' z : R) (vel : V2.t) (obs : list Obstacle.t),
    V3.y (steer_avoid (V3.mk x y z) vel obs) = 0 /\
    steer_avoid (V3.mk x y z) vel obs = steer_avoid (V3.mk x y' z) vel obs.
Proof.
  intros x y y' z vel obs. unfold steer_avoid. cbv zeta.
  cbn [V3.x V3.y V3.z].
  rewrite (fold_obstacle_push_adds (V3.mk _ y _) obs).
  rewrite (fold_obstacle_push_adds (V3.mk _ y' _) obs).
  cbn [V3.x V3.y V3.z]. split; [reflexivity |].
  assert (E : forall p,
            fold_left (obstacle_push (V3.mk (x + V2.x vel * 0.1) y
                                            (z + V2.z vel * 0.1))) obs p
            = fold_left (obstacle_push (V3.mk (x + V2.x vel * 0.1) y'
                                              (z + V2.z vel * 0.1))) obs p).
  { induction obs as [| o obs IH]; intros p; [reflexivity |].
    cbn [fold_left]. rewrite IH. reflexivity. }
  now rewrite E.
Qed.

(** ** Responses and faults of [get_controls] *)

Section Responses.

Lemma desired_direction_maxTurn (req : Request) (m : R) (w : World) :
  desired_direction (with_maxTurn req m) w = desired_direction req w.
Proof. reflexivity. Qed.

Lemma avoidance_maxTurn (req : Request) (m : R) (r : ref) (w : World) :
  avoidance (drone (with_maxTurn req m)) r (obstacles (with_maxTurn req m)) w
  = avoidance (drone req) r (obstacles req) w.
Proof. reflexivity. Qed.

(** The response of a tick that does not fault, in terms of the world it
    leaves. *)
Lemma tick_response (req : Request) (w : World) :
  Drone.maxTurn (drone req) <> 0 ->
  fst (tick req w)
  = Success (controls_of (control_state (snd (tick req w))))
            (search_state (snd (tick req w)))
            (seekDir_value (snd (tick req w)))
            (status_of req).
Proof.
  intros Hm. unfold tick.
  destruct (get_controls_body_ok req w Hm) as (r & h' & E & Hv).
  cbv zeta in E. rewrite E. cbn [fst snd control_state search_state].
  unfold seekDir_value, with_seekDir. cbn [heap search_state seekDir].
  now rewrite Hv.
Qed.

Lemma lerp_angle_not_started (a b t : R) : t <= 0 -> lerp_angle a b t = a.
Proof.
  intros Ht. unfold lerp_angle.
  replace (clamp t 0 1) with 0; [ring |].
  unfold clamp. rewrite Rmin_left by lra. symmetry. apply Rmax_left. lra.
Qed.

Lemma smooth_controls_zero_dt (c : ControlState) (raw : Controls.t) :
  smooth_controls c raw 0 = c.
Proof.
  destruct c as [y t p]. unfold smooth_controls, lerp_angle.
  cbn [last_yaw last_throttle last_pitch].
  replace (- 0 * 10.0) with 0 by lra. rewrite exp_0.
  replace (1.0 - 1) with 0 by lra.
  replace (clamp 0 0 1) with 0
    by (symmetry; apply clamp_inside; lra).
  f_equal; ring.
Qed.

End Responses.

(** X8. A tick that does not fault answers with the state it leaves
    behind: the controls are the output filter as stored, [searchState] is
    [search_state] with the contents of its [seekDir] dictionary, and
    [droneStatus] is HUNTING when [lockedTarget] is present and SEARCHING
    when it is absent. *)
Theorem X8_response_reports_state_and_mode :
  forall (req : Request) (w : World),
    Drone.maxTurn (drone req) <> 0 ->
    let w' := snd (tick req w) in
    fst (tick req w)
    = Success (Controls.mk (last_yaw (control_state w'))
                           (last_throttle (control_state w'))
                           (last_pitch (control_state w')))
              (search_state w') (seekDir_value w')
              (match lockedTarget req with
               | Some _ => HUNTING
               | None => SEARCHING
               end).
Proof.
  intros req w Hm w'. subst w'. rewrite (tick_response req w Hm) at 1.
  unfold controls_of, status_of, is_hunting.
  destruct (lockedTarget req); reflexivity.
Qed.

Lemma X8_response_reports_state_and_mode_witness :
  let d := Drone.mk (V3.mk 0 0 0) (V3.mk 0 0 0) 0 1 0 0 in
  let req := mkRequest d None (Terrain.mk 0 0) [] 1 in
  exists c s sd, fst (tick req initial_world) = Success c s sd SEARCHING.
Proof.
  intros d req. do 3 eexists.
  apply (X8_response_reports_state_and_mode req initial_world).
  unfold req, d. cbn [drone Drone.maxTurn]. lra.
Defined.

(** X9. With [drone.maxTurn = 0] the division of line 188 raises: the
    answer is status 500 with "Internal Server Error", the output filter is
    left as it was, and [search_state] and the heap have already been
    written exactly as by the same request with a nonzero [maxTurn]. *)
Theorem X9_zero_maxTurn_faults_after_search_update :
  forall (req : Request) (m : R) (w : World),
    Drone.maxTurn (drone req) = 0 -> m <> 0 ->
    let w0 := snd (tick req w) in
    let w1 := snd (tick (with_maxTurn req m) w) in
    fst (tick req w) = Failure 500 "Internal Server Error" /\
    control_state w0 = control_state w /\
    search_state w0 = search_state w1 /\
    heap w0 = heap w1.
Proof.
  intros req m w Hz Hm w0 w1. subst w0 w1. unfold tick.
  destruct (desired_direction_run req w) as (r & h1 & E & Hv & Hl).
  assert (E0 : exists h2 s2,
             get_controls_body req w
             = (Raised, mkWorld h2 s2 (control_state w)) /\
             exists resp c2,
               get_controls_body (with_maxTurn req m) w
               = (Ok resp, mkWorld h2 s2 c2)).
  { do 2 eexists. split.
    - unfold get_controls_body.
      unfold bind at 1. rewrite E.
      unfold bind at 1. rewrite avoidance_run by exact Hl.
      unfold bind at 1. rewrite controls_calculation_zero by exact Hz.
      cbn [heap search_state control_state]. reflexivity.
    - do 2 eexists. unfold get_controls_body.
      unfold bind at 1. rewrite desired_direction_maxTurn, E.
      unfold bind at 1. rewrite avoidance_maxTurn, avoidance_run by exact Hl.
      unfold bind at 1.
      rewrite controls_calculation_run
        by (cbn [with_maxTurn drone Drone.maxTurn]; exact Hm).
      unfold bind at 1. rewrite output_smoothing_run.
      cbn [heap search_state control_state]. reflexivity. }
  destruct E0 as (h2 & s2 & E0 & resp & c2 & E1).
  rewrite E0, E1. cbn [fst snd heap search_state control_state]. auto.
Qed.

Lemma X9_zero_maxTurn_faults_after_search_update_witness :
  let d := Drone.mk (V3.mk 0 0 0) (V3.mk 0 0 0) 0 0 0 0 in
  let req := mkRequest d None (Terrain.mk 0 0) [] 1 in
  fst (tick req initial_world) = Failure 500 "Internal Server Error" /\
  control_state (snd (tick req initial_world)) = initial_control.
Proof.
  intros d req.
  destruct (X9_zero_maxTurn_faults_after_search_update req 1 initial_world)
    as (A & B & _).
  - reflexivity.
  - lra.
  - split; [exact A | exact B].
Defined.



(** X11. [lockedTarget] and [obstacles] are optional: a body with only
    [drone], [terrain] and [dt] passes the validation and runs as a
    searching tick without obstacles. *)
Theorem X11_optional_fields_default :
  forall (d : Drone.t) (te : Terrain.t) (dt0 : R) (w : World),
    get_controls (json_required_only d te dt0) w
    = Some (tick (mkRequest d None te [] dt0) w).
Proof.
  intros d te dt0 w.
  pose proof (read_request_json (mkRequest d None te [] dt0)) as Hr.
  cbn [drone lockedTarget terrain obstacles dt map] in Hr.
  unfold get_controls, json_required_only. cbn [truthy negb].
  replace (dict_get _ "drone" PNone) with (json_drone d) by reflexivity.
  replace (dict_get _ "lockedTarget" PNone) with PNone by reflexivity.
  replace (dict_get _ "terrain" PNone) with (json_terrain te) by reflexivity.
  replace (dict_get _ "obstacles" (PList [])) with (PList []) by reflexivity.
  replace (dict_get _ "dt" PNone) with (PNum dt0) by reflexivity.
  rewrite Hr. reflexivity.
Qed.

(** X12. With [dt = 0] a tick leaves the output filter as it was, whether
    it succeeds or faults, so a success answers with the previous controls;
    with [dt <= 0] the yaw of the filter is left as it was. *)
Theorem X12_zero_dt_freezes_filter :
  forall (req : Request) (w : World),
    (dt req = 0 -> control_state (snd (tick req w)) = control_state w) /\
    (dt req <= 0 ->
     last_yaw (control_state (snd (tick req w)))
     = last_yaw (control_state w)).
Proof.
  intros req w.
  destruct (Req_dec_T (Drone.maxTurn (drone req)) 0) as [Hz | Hn].
  - unfold tick. destruct (get_controls_body_zero req w Hz) as (r & h' & E & _).
    rewrite E. cbn [snd control_state]. split; reflexivity.
  - destruct (tick_ok req w Hn) as (s' & sd & _ & E).
    cbv zeta in E. rewrite E. split.
    + intros Hdt. rewrite Hdt. apply smooth_controls_zero_dt.
    + intros Hdt. unfold smooth_controls. cbn [last_yaw].
      apply lerp_angle_not_started.
      pose proof (exp_pos (- dt req * 10.0)).
      assert (exp 0 <= exp (- dt req * 10.0)).
      { destruct (Req_dec_T (dt req) 0) as [-> | Hne].
        - replace (- 0 * 10.0) with 0 by lra. lra.
        - left. apply exp_increasing. lra. }
      rewrite exp_0 in *. lra.
Qed.

Lemma X12_zero_dt_freezes_filter_witness :
  let d := Drone.mk (V3.mk 0 0 0) (V3.mk 0 0 0) 0 1 5 3 in
  let req := mkRequest d None (Terrain.mk 0 0) [] 0 in
  control_state (snd (tick req initial_world)) = initial_control.
Proof.
  intros d req.
  apply (proj1 (X12_zero_dt_freezes_filter req initial_world)).
  reflexivity.
Defined.

(** ** Commands and their smoothing *)

(** X13. On a tick that does not fault the throttle and the pitch of the
    output filter move toward the raw commands of lines 195-204, which do
    not depend on the desired direction: the distance to the raw command is
    multiplied by exp(-10 dt), a factor in (0, 1) when [dt > 0]. *)
Theorem X13_filter_error_decays :
  forall (req : Request) (w : World) (dir : V2.t),
    Drone.maxTurn (drone req) <> 0 ->
    let raw := raw_controls (drone req) (terrain req) dir (dt req) in
    let c := control_state w in
    let c' := control_state (snd (tick req w)) in
    last_throttle c' - Controls.throttle raw
    = exp (- dt req * 10.0) * (last_throttle c - Controls.throttle raw) /\
    last_pitch c' - Controls.pitch raw
    = exp (- dt req * 10.0) * (last_pitch c - Controls.pitch raw) /\
    (dt req > 0 -> 0 < exp (- dt req * 10.0) < 1).
Proof.
  intros req w dir Hm raw c c'. subst raw c c'.
  destruct (tick_ok req w Hm) as (s' & sd & _ & E).
  cbv zeta in E. rewrite E. unfold smooth_controls, raw_controls.
  cbn [last_throttle last_pitch Controls.throttle Controls.pitch].
  replace 1.0 with 1 by lra.
  split; [ring |]. split; [ring |].
  intros Hdt. pose proof (smoothing_factor_range (dt req) Hdt). lra.
Qed.

Lemma X13_filter_error_decays_witness :
  let d := Drone.mk (V3.mk 0 0 0) (V3.mk 0 0 0) 0 1 5 3 in
  let req := mkRequest d None (Terrain.mk 0 0) [] 1 in
  0 < exp (- dt req * 10.0) < 1.
Proof.
  intros d req.
  refine (proj2 (proj2 (X13_filter_error_decays req initial_world
                          (V2.mk 1 0) _)) _).
  - unfold req, d. cbn [drone Drone.maxTurn]. lra.
  - unfold req. cbn [dt]. lra.
Defined.

(** X14. The raw commands of lines 185-204, for a [maxTurn] other than 0,
    leave the world as it is. The throttle and the pitch lie in [-1, 1].
    With [maxTurn > 0] the yaw is the yaw error over
    [maxTurn * max(dt, 1e-5)], clamped to [-1, 1]; with [maxTurn < 0] the
    bounds of the clamp of line 187 are the wrong way round and the yaw is
    -1 whatever the yaw error. *)
Theorem X14_raw_commands :
  forall (d : Drone.t) (te : Terrain.t) (r : ref) (dt0 : R) (w : World),
    Drone.maxTurn d <> 0 ->
    exists c : Controls.t,
      controls_calculation d te r dt0 w = (Ok c, w) /\
      in_unit_range (Controls.throttle c) /\
      in_unit_range (Controls.pitch c) /\
      (Drone.maxTurn d > 0 ->
       Controls.yaw c
       = clamp (yaw_error_of d (heap_get (heap w) r)
                / (Drone.maxTurn d * Rmax dt0 1e-5)) (-1) 1) /\
      (Drone.maxTurn d < 0 -> Controls.yaw c = -1).
Proof.
  intros d te r dt0 w Hm.
  exists (raw_controls d te (heap_get (heap w) r) dt0).
  split; [now apply controls_calculation_run |].
  unfold raw_controls, yaw_error_of, in_unit_range.
  cbn [Controls.yaw Controls.throttle Controls.pitch].
  set (err := wrap_angle _). set (m := Drone.maxTurn d) in *.
  split; [apply clamp_bounds; lra |]. split; [apply clamp_bounds; lra |].
  assert (Hdt : 0 < Rmax dt0 1e-5).
  { pose proof (Rmax_r dt0 1e-5). lra. }
  set (q := Rmax dt0 1e-5) in *.
  split.
  - intros Hpos.
    assert (Hdiv : err / (m * q) = err / q / m) by (field; lra).
    rewrite Hdiv. set (v := err / q).
    unfold clamp, Rmax, Rmin.
    assert (Hv : v = v / m * m) by (field; lra).
    destruct (Rle_dec v m) as [H1 | H1];
      destruct (Rle_dec (v / m) 1) as [H2 | H2]; try (exfalso; nra).
    + destruct (Rle_dec (- m) v) as [H3 | H3];
        destruct (Rle_dec (-1) (v / m)) as [H4 | H4];
        try (exfalso; nra); try reflexivity.
      field. lra.
    + destruct (Rle_dec (- m) m) as [H3 | H3]; [| exfalso; lra].
      destruct (Rle_dec (-1) 1) as [H4 | H4]; [| exfalso; lra].
      field. lra.
  - intros Hneg. rewrite clamp_inverted by lra. field. lra.
Qed.

Lemma X14_raw_commands_witness :
  let d := Drone.mk (V3.mk 0 0 0) (V3.mk 0 0 0) 0 (-2) 0 0 in
  exists c : Controls.t,
    controls_calculation d (Terrain.mk 0 0) 0%nat 1 initial_world
    = (Ok c, initial_world) /\ Controls.yaw c = -1.
Proof.
  intros d.
  destruct (X14_raw_commands d (Terrain.mk 0 0) 0%nat 1 initial_world)
    as (c & E & _ & _ & _ & Hneg).
  - unfold d. cbn [Drone.maxTurn]. lra.
  - exists c. split; [exact E |]. apply Hneg.
    unfold d. cbn [Drone.maxTurn]. lra.
Defined.

(** ** The seek direction and the sweep over several ticks *)

Section SeekAndSweep.

Lemma normalize_value_norm (v : V2.t) :
  (sqrt (norm_sq v) > 1e-6 -> norm_sq (normalize_value v) = 1) /\
  (sqrt (norm_sq v) <= 1e-6 -> normalize_value v = v).
Proof.
  unfold normalize_value, norm_sq. cbv zeta.
  set (n := V2.x v ^ 2 + V2.z v ^ 2).
  destruct (Rgt_dec (sqrt n) 1e-6) as [Hl | Hl]; split; intros H; try lra.
  - cbn [V2.x V2.z].
    assert (Hn : 0 <= n)
      by (unfold n; apply Rplus_le_le_0_compat; apply pow2_ge_0).
    pose proof (sqrt_sqrt n Hn) as Hs.
    replace ((V2.x v / sqrt n) ^ 2 + (V2.z v / sqrt n) ^ 2)
      with (n / (sqrt n * sqrt n)) by (subst n; field; lra).
    rewrite Hs. field. intros Hz. rewrite Hz, sqrt_0 in Hl. lra.
  - reflexivity.
Qed.

(** The fields of the state machine one tick later, whatever the outcome
    of the tick. *)
Lemma tick_sweep_fields (req : Request) (w : World) :
  let s' := search_state (snd (tick req w)) in
  let m := mode_state req (search_state w) in
  inited s' = inited m /\ centerYaw s' = centerYaw m /\ side s' = side m /\
  timer s' = timer m /\ phase s' = phase m.
Proof.
  destruct (tick_search_state req w) as (r & E & _). cbv zeta. rewrite E.
  unfold with_seekDir. cbn [inited centerYaw side timer phase].
  repeat split; reflexivity.
Qed.

Lemma sweep_step_fresh (d : Drone.t) (dt0 : R) (s : SearchState) :
  inited s = false -> freshly_started (Drone.yaw d) dt0 (sweep_step d dt0 s).
Proof.
  intros Hi. unfold freshly_started, sweep_step, sweep_entry.
  rewrite Hi. cbn [inited centerYaw side timer phase]. unfold SWEEP_HOLD.
  destruct (Rle_dec (3.0 - dt0) 0) as [H | H];
    cbn [inited centerYaw side timer phase]; unfold SWEEP_TRANSIT;
    repeat split; intros; try lra; reflexivity.
Qed.

Lemma mode_state_ok (req : Request) (s : SearchState) :
  0 <= dt req -> sweep_ok s -> sweep_ok (mode_state req s).
Proof.
  intros Hdt [Hside Htimer]. unfold sweep_ok, mode_state.
  destruct (lockedTarget req) as [t |].
  - cbn [side inited timer]. split; [exact Hside | discriminate].
  - unfold sweep_step, sweep_entry. unfold SWEEP_HOLD, SWEEP_TRANSIT.
    destruct (inited s) eqn:Hi.
    + specialize (Htimer eq_refl).
      destruct (Rle_dec (timer s - dt req) 0) as [H | H];
        [destruct (phase s) |]; cbn [side inited timer];
        (split; [lia | intros _; lra]).
    + cbn [side inited timer phase].
      destruct (Rle_dec (3.0 - dt req) 0) as [H | H];
        cbn [side inited timer]; (split; [lia | intros _; lra]).
Qed.

End SeekAndSweep.

(** After a tick [search_state['seekDir']] is a dictionary, and the vector
    it holds has length 1 or length at most 1e-6. *)
Lemma tick_seekDir_unit_or_tiny :
  forall (req : Request) (w : World),
    exists v : V2.t,
      seekDir_value (snd (tick req w)) = Some v /\
      (norm_sq v = 1 \/ sqrt (norm_sq v) <= 1e-6).
Proof.
  intros req w. rewrite final_direction_eq. eexists. split; [reflexivity |].
  unfold avoid_value. cbv zeta.
  set (u := V2.mk _ _).
  destruct (normalize_value_norm u) as [Hbig Hsmall].
  destruct (Rgt_dec (sqrt (norm_sq u)) 1e-6) as [H | H].
  - left. now apply Hbig.
  - right. rewrite Hsmall by lra. lra.
Qed.

(** X16. The raw direction of a tick is a unit vector; on a searching tick
    it is the direction of angle [centerYaw + side * 40 degrees], for the
    [centerYaw] and [side] that the tick leaves. *)
Theorem X16_raw_direction_unit_and_sweep_angle :
  forall (req : Request) (w : World),
    exists v : V2.t,
      raw_direction req w = Some v /\ norm_sq v = 1 /\
      (lockedTarget req = None ->
       let s' := search_state (snd (tick req w)) in
       let yaw_t := centerYaw s' + IZR (side s') * radians 40 in
       v = V2.mk (cos yaw_t) (sin yaw_t)).
Proof.
  intros req w. rewrite raw_direction_eq. eexists. split; [reflexivity |].
  destruct (tick_sweep_fields req w) as (_ & Hc & Hs & _).
  unfold raw_value, mode_state in *.
  destruct (lockedTarget req) as [t |].
  - split; [apply hunt_raw_unit | discriminate].
  - unfold search_raw, norm_sq, SWEEP_ANGLE_DEG. cbv zeta.
    set (a := centerYaw _ + _).
    destruct (wrap_angle_cos_sin a) as [Ec Es].
    rewrite Ec, Es. cbn [V2.x V2.z]. split.
    + pose proof (sin2_cos2 a) as H. unfold Rsqr in H. lra.
    + intros _. rewrite Hc, Hs. reflexivity.
Qed.

Lemma X16_raw_direction_unit_and_sweep_angle_witness :
  let d := Drone.mk (V3.mk 0 0 0) (V3.mk 0 0 0) 0 1 0 0 in
  let req := mkRequest d None (Terrain.mk 0 0) [] 1 in
  exists v : V2.t,
    raw_direction req initial_world = Some v /\
    v = V2.mk
          (cos (centerYaw (search_state (snd (tick req initial_world)))
                + IZR (side (search_state (snd (tick req initial_world))))
                  * radians 40))
          (sin (centerYaw (search_state (snd (tick req initial_world)))
                + IZR (side (search_state (snd (tick req initial_world))))
                  * radians 40)).
Proof.
  intros d req.
  destruct (X16_raw_direction_unit_and_sweep_angle req initial_world)
    as (v & E & _ & H).
  exists v. split; [exact E |]. exact (H eq_refl).
Defined.

(** X17. A searching tick restarts the state machine when it is not
    running, that is on the first tick ever and on the first tick after a
    hunting tick: after it [inited] is true, [centerYaw] is the drone's
    yaw, and the hold has begun with [side] 1 and 3.0 - dt on the timer, or,
    when [dt] is 3.0 or more, is already over ([transit], [side] -1, timer
    0.9). *)
Theorem X17_search_restarts_after_hunting :
  forall (s : Request) (w : World),
    lockedTarget s = None ->
    (inited (search_state w) = false ->
     freshly_started (Drone.yaw (drone s)) (dt s) (sweep_after [s] w)) /\
    (forall h : Request,
       lockedTarget h <> None ->
       freshly_started (Drone.yaw (drone s)) (dt s) (sweep_after [h; s] w)).
Proof.
  intros s w Hs.
  assert (H : forall w0, inited (search_state w0) = false ->
            freshly_started (Drone.yaw (drone s)) (dt s)
                            (sweep_after [s] w0)).
  { intros w0 Hi. unfold sweep_after. rewrite run_ticks_cons.
    cbn [run_ticks snd].
    destruct (tick_sweep_fields s w0) as (A & B & C & D & E).
    unfold mode_state in *. rewrite Hs in *.
    pose proof (sweep_step_fresh (drone s) (dt s) (search_state w0) Hi) as F.
    unfold freshly_started in *. rewrite A, B, C, D, E. exact F. }
  split; [apply H |].
  intros h Hh. unfold sweep_after. rewrite run_ticks_cons.
  apply H.
  destruct (tick_sweep_fields h w) as (A & _). rewrite A.
  unfold mode_state. destruct (lockedTarget h); [reflexivity | contradiction].
Qed.

Lemma X17_search_restarts_after_hunting_witness :
  let d := Drone.mk (V3.mk 0 0 0) (V3.mk 0 0 0) 2 1 0 0 in
  let s := mkRequest d None (Terrain.mk 0 0) [] 1 in
  let h := mkRequest d (Some (Target.mk (V2.mk 10 0) (V2.mk 0 0)))
                     (Terrain.mk 0 0) [] 1 in
  freshly_started 2 1 (sweep_after [s] initial_world) /\
  freshly_started 2 1 (sweep_after [h; s] initial_world).
Proof.
  intros d s h. split.
  - apply (proj1 (X17_search_restarts_after_hunting s initial_world
                    eq_refl)). reflexivity.
  - apply (proj2 (X17_search_restarts_after_hunting s initial_world
                    eq_refl)). discriminate.
Defined.

Lemma initial_sweep_ok : sweep_ok (search_state initial_world).
Proof.
  unfold sweep_ok, initial_world, initial_search.
  cbn [search_state side inited]. split; [now left | discriminate].
Qed.

(** Ticks with [dt >= 0] keep [side] and the timer in their ranges. *)
Lemma run_ticks_sweep_ok (reqs : list Request) :
  forall w : World,
    Forall (fun req => 0 <= dt req) reqs ->
    sweep_ok (search_state w) ->
    sweep_ok (sweep_after reqs w).
Proof.
  unfold sweep_after.
  induction reqs as [| req reqs IH]; intros w Hall Hok.
  - exact Hok.
  - inversion Hall as [| ? ? Hdt Hrest]; subst.
    rewrite run_ticks_cons. apply IH; [exact Hrest |].
    pose proof (mode_state_ok req (search_state w) Hdt Hok) as Hm.
    destruct (tick_sweep_fields req w) as (A & _ & C & D & _).
    unfold sweep_ok in *. rewrite A, C, D. exact Hm.
Qed.

(** X19. While the state machine runs, [centerYaw] is left as it is by
    hunting ticks and by searching ticks in [hold]. A searching tick in
    [transit] with [dt >= 0] turns it toward the heading from the drone to
    the origin: when that heading is within half a turn of [centerYaw], the
    angle left to turn is multiplied by exp(-0.25 dt). *)
Theorem X19_centerYaw_recentres_in_transit :
  forall (req : Request) (w : World),
    inited (search_state w) = true ->
    let s := search_state w in
    let s' := search_state (snd (tick req w)) in
    let home := heading_home (drone req) in
    (lockedTarget req <> None \/ phase s = hold ->
     centerYaw s' = centerYaw s) /\
    (lockedTarget req = None -> phase s = transit -> 0 <= dt req ->
     - PI < home - centerYaw s <= PI ->
     home - centerYaw s' = exp (- dt req * 0.25) * (home - centerYaw s)).
Proof.
  intros req w Hi s s' home. subst s s' home.
  destruct (tick_sweep_fields req w) as (_ & B & _). rewrite B.
  unfold mode_state, sweep_step, sweep_entry, heading_home. rewrite Hi.
  split.
  - intros [Hh | Hp].
    + destruct (lockedTarget req); [reflexivity | contradiction].
    + destruct (lockedTarget req); [reflexivity |].
      rewrite Hp. cbv zeta. destruct (Rle_dec _ 0); reflexivity.
  - intros Hn Hp Hdt Hclose. rewrite Hn, Hp. cbv zeta.
    set (f := 1 - exp (- dt req * 0.25)).
    assert (Hf : 0 <= f <= 1).
    { unfold f. pose proof (exp_pos (- dt req * 0.25)).
      assert (exp (- dt req * 0.25) <= exp 0).
      { destruct (Req_dec_T (dt req) 0) as [E | E].
        - rewrite E. replace (- 0 * 0.25) with 0 by lra. lra.
        - left. apply exp_increasing. lra. }
      rewrite exp_0 in *. lra. }
    assert (E : centerYaw
                  (if Rle_dec (timer (search_state w) - dt req) 0
                   then mkSearch (inited (search_state w))
                          (lerp_angle (centerYaw (search_state w))
                             (atan2 (- V3.z (Drone.position (drone req)))
                                    (- V3.x (Drone.position (drone req)))) f)
                          (side (search_state w)) SWEEP_HOLD hold
                          (seekDir (search_state w))
                   else mkSearch (inited (search_state w))
                          (lerp_angle (centerYaw (search_state w))
                             (atan2 (- V3.z (Drone.position (drone req)))
                                    (- V3.x (Drone.position (drone req)))) f)
                          (side (search_state w))
                          (timer (search_state w) - dt req) transit
                          (seekDir (search_state w)))
                = lerp_angle (centerYaw (search_state w))
                    (atan2 (- V3.z (Drone.position (drone req)))
                           (- V3.x (Drone.position (drone req)))) f).
    { destruct (Rle_dec _ 0); reflexivity. }
    rewrite E. unfold lerp_angle. rewrite wrap_angle_id by exact Hclose.
    rewrite clamp_inside by exact Hf. unfold f. ring.
Qed.

Lemma X19_centerYaw_recentres_in_transit_witness :
  let d := Drone.mk (V3.mk 0 0 0) (V3.mk 0 0 0) 0 1 0 0 in
  let req := mkRequest d None (Terrain.mk 0 0) [] 1 in
  let w := mkWorld [] (mkSearch true 0 1 3.0 hold None) initial_control in
  centerYaw (search_state (snd (tick req w))) = 0.
Proof.
  intros d req w.
  apply (proj1 (X19_centerYaw_recentres_in_transit req w eq_refl)).
  right. reflexivity.
Defined.

(** ** The seek direction without avoidance *)

Section NoAvoidance.

Lemma normalize_value_idempotent (v : V2.t) :
  normalize_value (normalize_value v) = normalize_value v.
Proof.
  destruct (normalize_value_norm v) as [Hbig Hsmall].
  destruct (Rgt_dec (sqrt (norm_sq v)) 1e-6) as [H | H].
  - apply normalize_value_unit. apply Hbig. exact H.
  - rewrite Hsmall by lra. apply Hsmall. lra.
Qed.

Lemma smoothed_value_normalized (req : Request) (w : World) :
  normalize_value (smoothed_value req w) = smoothed_value req w.
Proof.
  unfold smoothed_value. cbv zeta.
  destruct (is_hunting req && inited (search_state w));
    apply normalize_value_idempotent.
Qed.

Lemma steer_avoid_nothing (pos : V3.t) (vel : V2.t) (obs : list Obstacle.t) :
  clear_of_boundary pos -> Forall (passed_over pos vel) obs ->
  steer_avoid pos vel obs = V3.mk 0 0 0.
Proof.
  intros [Hx Hz] Hall.
  rewrite <- (steer_avoid_clear pos vel Hx Hz).
  unfold steer_avoid. cbv zeta.
  assert (E : forall p,
            fold_left
              (obstacle_push (V3.mk (V3.x pos + V2.x vel * 0.1) (V3.y pos)
                                    (V3.z pos + V2.z vel * 0.1))) obs p = p).
  { induction Hall as [| o obs Ho _ IH]; intros p; [reflexivity |].
    cbn [fold_left]. rewrite obstacle_push_passed_over by exact Ho.
    apply IH. }
  rewrite E. reflexivity.
Qed.

End NoAvoidance.

(** X20. When avoidance has nothing to add (the drone is at least the
    margin inside the arena and every obstacle is passed over from the
    look-ahead point of the smoothed direction), the [seekDir] left in
    [search_state] is the result of the smoothing stage; on the tick that
    begins a hunt while [inited] is true it is then the raw intercept
    direction. *)
Theorem X20_seekDir_without_avoidance :
  forall (req : Request) (w : World) (v : V2.t),
    smoothed_direction req w = Some v ->
    clear_of_boundary (Drone.position (drone req)) ->
    Forall (passed_over (Drone.position (drone req)) v) (obstacles req) ->
    seekDir_value (snd (tick req w)) = Some v /\
    (lockedTarget req <> None -> inited (search_state w) = true ->
     seekDir_value (snd (tick req w)) = raw_direction req w).
Proof.
  intros req w v Hv Hclear Hall.
  rewrite smoothed_direction_eq in Hv. injection Hv as Hv.
  assert (E : seekDir_value (snd (tick req w)) = Some v).
  { rewrite final_direction_eq, Hv. unfold avoid_value.
    rewrite steer_avoid_nothing by assumption. cbn [V3.x V3.z].
    f_equal. replace (V2.mk (V2.x v + 0) (V2.z v + 0)) with v
      by (apply V2_eq; cbn [V2.x V2.z]; ring).
    rewrite <- Hv. apply smoothed_value_normalized. }
  split; [exact E |].
  intros Ht Hi. rewrite E, raw_direction_eq, <- Hv. f_equal.
  unfold smoothed_value, raw_value, is_hunting. rewrite Hi.
  destruct (lockedTarget req) as [t |]; [| contradiction].
  cbn [andb]. apply normalize_value_unit, hunt_raw_unit.
Qed.

Lemma X20_seekDir_without_avoidance_witness :
  let w := mkWorld [] (mkSearch true 0 1 3.0 hold None) initial_control in
  let d := Drone.mk (V3.mk 0 0 0) (V3.mk 0 0 0) 0 1 0 0 in
  let t := Target.mk (V2.mk 10 0) (V2.mk 0 0) in
  let req := mkRequest d (Some t) (Terrain.mk 0 0) [] 1 in
  seekDir_value (snd (tick req w)) = smoothed_direction req w.
Proof.
  intros w d t req.
  assert (Hc : clear_of_boundary (Drone.position (drone req))).
  { unfold clear_of_boundary, req, d. cbn [drone Drone.position V3.x V3.z].
    rewrite Rabs_R0. lra. }
  destruct (smoothed_direction req w) as [v |] eqn:Hv.
  - apply (proj1 (X20_seekDir_without_avoidance req w v Hv Hc
                    (Forall_nil _))).
  - rewrite smoothed_direction_eq in Hv. discriminate.
Defined.

(** ** Bodies whose fields all read *)

Section FullyRead.

Lemma opt_bind_some {A B : Type} (o : option A) (f : A -> option B) (b : B) :
  opt_bind o f = Some b -> exists a, o = Some a /\ f a = Some b.
Proof. destruct o as [a |]; [eauto | discriminate]. Qed.

Lemma item_truthy (v x : pyval) (k : string) :
  item v k = Some x -> truthy v = true.
Proof.
  destruct v as [| | | | | kv]; try discriminate.
  destruct kv; [discriminate | reflexivity].
Qed.

Lemma read_drone_truthy (v : pyval) (d : Drone.t) :
  read_drone v = Some d -> truthy v = true.
Proof.
  unfold read_drone. intros H.
  apply opt_bind_some in H. destruct H as (p & H & _).
  apply opt_bind_some in H. destruct H as (x & H & _).
  exact (item_truthy _ _ _ H).
Qed.

Lemma read_terrain_truthy (v : pyval) (t : Terrain.t) :
  read_terrain v = Some t -> truthy v = true.
Proof.
  unfold read_terrain, num_item. intros H.
  apply opt_bind_some in H. destruct H as (p & H & _).
  apply opt_bind_some in H. destruct H as (x & H & _).
  exact (item_truthy _ _ _ H).
Qed.

Lemma as_num_not_None (v : pyval) (a : R) :
  as_num v = Some a -> is_None v = false.
Proof. destruct v; try discriminate; reflexivity. Qed.

Lemma get_controls_reads (data : pyval) (req : Request) (w : World) :
  reads_as data req -> get_controls data w = Some (tick req w).
Proof.
  intros (kv & -> & Hr).
  pose proof Hr as H. unfold read_request in H.
  apply opt_bind_some in H. destruct H as (d & Hd & H).
  apply opt_bind_some in H. destruct H as (t & _ & H).
  apply opt_bind_some in H. destruct H as (te & Hte & H).
  apply opt_bind_some in H. destruct H as (obs & _ & H).
  apply opt_bind_some in H. destruct H as (dt0 & Hdt & _).
  assert (Hkv : kv <> []).
  { intros ->. discriminate Hd. }
  unfold get_controls. rewrite truthy_dict by exact Hkv.
  cbn [negb all forallb].
  rewrite (read_drone_truthy _ _ Hd), (read_terrain_truthy _ _ Hte),
    (as_num_not_None _ _ Hdt).
  cbn [negb andb]. rewrite Hr. reflexivity.
Qed.

Lemma json_request_reads (req : Request) : reads_as (json_request req) req.
Proof.
  unfold reads_as, json_request. eexists. split; [reflexivity |].
  replace (dict_get _ "drone" PNone) with (json_drone (drone req))
    by reflexivity.
  replace (dict_get _ "lockedTarget" PNone)
    with (match lockedTarget req with
          | Some t => json_target t
          | None => PNone
          end) by reflexivity.
  replace (dict_get _ "terrain" PNone) with (json_terrain (terrain req))
    by reflexivity.
  replace (dict_get _ "obstacles" (PList []))
    with (PList (map json_obstacle (obstacles req))) by reflexivity.
  replace (dict_get _ "dt" PNone) with (PNum (dt req)) by reflexivity.
  apply read_request_json.
Qed.

Lemma run_requests_reads (bodies : list pyval) (reqs : list Request) :
  Forall2 reads_as bodies reqs ->
  forall w : World,
    run_requests bodies w = Some (snd (run_ticks reqs w)).
Proof.
  induction 1 as [| data req bodies reqs Hr _ IH]; intros w.
  - reflexivity.
  - cbn [run_requests get_controls_request].
    rewrite (get_controls_reads data req w Hr).
    rewrite run_ticks_cons. destruct (tick req w) as [resp w1].
    cbn [snd]. apply IH.
Qed.

End FullyRead.

(** X21. A body whose fields all read (every key the handler indexes is
    present and holds a number; other keys, and the order of the keys, do
    not matter) passes the validation of lines 83-94, and the handler then
    does what the tick does on the request read; the JSON object written
    from a request reads as that request. *)
Theorem X21_fully_read_body_runs_the_tick :
  (forall (data : pyval) (req : Request) (w : World),
     reads_as data req ->
     get_controls_request (JsonValue data) w = Some (tick req w)) /\
  (forall req : Request, reads_as (json_request req) req).
Proof.
  split.
  - intros data req w H. cbn [get_controls_request].
    now apply get_controls_reads.
  - apply json_request_reads.
Qed.

Lemma X21_fully_read_body_runs_the_tick_witness :
  let d := Drone.mk (V3.mk 0 0 0) (V3.mk 0 0 0) 0 1 0 0 in
  let req := mkRequest d None (Terrain.mk 0 0) [] 1 in
  get_controls_request (JsonValue (json_request req)) initial_world
  = Some (tick req initial_world).
Proof.
  intros d req.
  apply (proj1 X21_fully_read_body_runs_the_tick).
  apply (proj2 X21_fully_read_body_runs_the_tick).
Defined.

(** X15. After a request whose fields all read, whether the tick succeeds
    or ends in the fault of [maxTurn = 0], [search_state['seekDir']] is a
    dictionary, and the vector it holds has length 1 or length at most 1e-6
    (when the renormalization of lines 179-182 is skipped). A payload that
    passes the validation without reading raises earlier and is not
    covered. *)
Theorem X15_seekDir_unit_or_tiny :
  forall (data : pyval) (req : Request) (w : World),
    reads_as data req ->
    exists (resp : Response) (w' : World) (v : V2.t),
      get_controls_request (JsonValue data) w = Some (resp, w') /\
      seekDir_value w' = Some v /\
      (norm_sq v = 1 \/ sqrt (norm_sq v) <= 1e-6).
Proof.
  intros data req w Hr.
  destruct (tick_seekDir_unit_or_tiny req w) as (v & Hv & Hn).
  exists (fst (tick req w)), (snd (tick req w)), v.
  split; [| split; assumption].
  cbn [get_controls_request]. rewrite (get_controls_reads data req w Hr).
  now destruct (tick req w).
Qed.

Lemma X15_seekDir_unit_or_tiny_witness :
  let d := Drone.mk (V3.mk 0 0 0) (V3.mk 0 0 0) 0 0 0 0 in
  let req := mkRequest d None (Terrain.mk 0 0) [] 1 in
  exists (resp : Response) (w' : World) (v : V2.t),
    get_controls_request (JsonValue (json_request req)) initial_world
    = Some (resp, w') /\
    seekDir_value w' = Some v /\
    (norm_sq v = 1 \/ sqrt (norm_sq v) <= 1e-6).
Proof.
  intros d req.
  apply (X15_seekDir_unit_or_tiny (json_request req) req initial_world).
  apply json_request_reads.
Defined.

(** X18. Along any sequence of requests whose fields all read and whose
    [dt] is at least 0, hunting or searching, succeeding or ending in the
    fault of [maxTurn = 0], from the initial state or from any state in
    which this holds: [side] is 1 or -1, and while [inited] is true the
    timer lies in (0, 3.0]. A payload that passes the validation without
    reading can raise between the writes of lines 124-128 and is not
    covered. *)
Theorem X18_side_and_timer_invariant :
  sweep_ok (search_state initial_world) /\
  forall (bodies : list pyval) (reqs : list Request) (w : World),
    Forall2 reads_as bodies reqs ->
    Forall (fun req => 0 <= dt req) reqs ->
    sweep_ok (search_state w) ->
    exists w' : World,
      run_requests bodies w = Some w' /\ sweep_ok (search_state w').
Proof.
  split; [exact initial_sweep_ok |].
  intros bodies reqs w Hr Hdt Hok.
  exists (snd (run_ticks reqs w)). split.
  - now apply run_requests_reads.
  - now apply (run_ticks_sweep_ok reqs w).
Qed.

Lemma X18_side_and_timer_invariant_witness :
  let d := Drone.mk (V3.mk 0 0 0) (V3.mk 0 0 0) 0 1 0 0 in
  let s := mkRequest d None (Terrain.mk 0 0) [] 1 in
  let b := json_request s in
  exists w' : World,
    run_requests [b; b; b; b] initial_world = Some w' /\
    sweep_ok (search_state w').
Proof.
  intros d s b.
  apply (proj2 X18_side_and_timer_invariant [b; b; b; b] [s; s; s; s]).
  - repeat (apply Forall2_cons; [apply json_request_reads |]).
    apply Forall2_nil.
  - repeat (apply Forall_cons; [unfold s; cbn [dt]; lra |]).
    apply Forall_nil.
  - exact (proj1 X18_side_and_timer_invariant).
Defined.
